(** * The domain validator of [tools/strat.py]

    A shallow embedding of [domain_validate_strategy], the rule engine that
    checks a race strategy document for stint continuity, pit-stop count,
    summary consistency and tyre inventory, and of the Python primitives it
    relies on.

    The strategy document is the value [yaml.safe_load] hands to the
    function: nested mappings whose leaves are integers, strings and
    booleans.  A key read with [.get(k, default)] is an [option] field;
    integers are [Z] (Python integers are unbounded), the inventory mapping
    is a [gmap], and the [usage] dictionary, whose iteration order decides
    the order of the messages, is an association list in insertion order.

    Two things in the function reach outside plain data.  Check 7 multiplies
    the race length by the float [0.7]: the product is computed in binary64
    ([SpecFloat]), and the conversion of the race length can raise
    [OverflowError], so a call has an [Outcome]: a returned text or an
    exception.  And check 2 builds a [set] of strings, whose arrangement
    depends on the hash seed of the process: the validator takes that
    arrangement as a parameter. *)

From Stdlib Require Import ZArith Lia Ascii String.
From Stdlib Require Import Floats.SpecFloat.
From stdpp Require Import gmap strings list pretty sorting.

Open Scope string_scope.
Open Scope list_scope.
Open Scope Z_scope.

(** ** Python primitives *)

Module Py.

(** [str(n)] for an integer. *)
Definition str_int (n : Z) : string := pretty n.

(** [str(x)] where [x] is [d.get(k)]: an integer, or [None]. *)
Definition str_opt_int (x : option Z) : string :=
  match x with
  | Some n => str_int n
  | None => "None"
  end.

(** [sep.join(parts)] *)
Fixpoint join (sep : string) (parts : list string) : string :=
  match parts with
  | [] => EmptyString
  | [p] => p
  | p :: ps => p +:+ sep +:+ join sep ps
  end.

(** [str(l)] for a list of integers: [[17, 38]]. *)
Definition str_list_int (l : list Z) : string :=
  "[" +:+ join ", " (map str_int l) +:+ "]".

(** [c.isspace()] on the ASCII range. *)
Definition isspace (c : ascii) : bool :=
  let n := nat_of_ascii c in
  ((9 <=? n) && (n <=? 13) || (28 <=? n) && (n <=? 32))%nat.

Fixpoint lstrip (s : string) : string :=
  match s with
  | String c s' => if isspace c then lstrip s' else s
  | EmptyString => EmptyString
  end.

Fixpoint rstrip (s : string) : string :=
  match s with
  | EmptyString => EmptyString
  | String c s' =>
      match rstrip s' with
      | EmptyString => if isspace c then EmptyString else String c EmptyString
      | r => String c r
      end
  end.

(** [s.strip()] *)
Definition strip (s : string) : string := rstrip (lstrip s).

(** [s.split(sep)] for a one-character separator: every occurrence
    splits, so the result has one more part than [s] has separators. *)
Fixpoint split (sep : ascii) (s : string) : list string :=
  match s with
  | EmptyString => [EmptyString]
  | String c s' =>
      if decide (c = sep) then EmptyString :: split sep s'
      else match split sep s' with
           | p :: ps => String c p :: ps
           | [] => [String c EmptyString]
           end
  end.

(** [sorted(l)] on integers. *)
Definition sorted (l : list Z) : list Z := merge_sort Z.le l.

(** [int(d.get(k, 0) or 0)]: a missing key gives 0, like a null would. *)
Definition int_or0 (x : option Z) : Z := default 0 x.

(** A [set] of strings is a hash table; CPython salts string hashes per
    process, so the arrangement of the elements differs between runs.
    A [SetLayout] is one such arrangement. *)
Record SetLayout := {
  arrange : list string → list string;
  arrange_perm : ∀ l, arrange l ≡ₚ l
}.

(** The set built from the elements of [l] under layout [h]. *)
Definition set_of (h : SetLayout) (l : list string) : list string :=
  arrange h (remove_dups l).

(** The layout that keeps first-insertion order. *)
Definition insertion_layout : SetLayout :=
  {| arrange := λ l, l; arrange_perm := λ l, reflexivity l |}.

Inductive Exn := OverflowError.

End Py.

(** ** Binary64 arithmetic, as far as check 7 uses it *)

Module Float64.

Definition prec : Z := 53.
Definition emax : Z := 1024.

(** Conversion of an integer operand of a float operation: rounded to
    nearest-even, and refused with [OverflowError] when the rounded value
    is not finite. *)
Definition of_int (n : Z) : Py.Exn + spec_float :=
  match binary_normalize prec emax n 0 false with
  | S754_infinity _ => inl Py.OverflowError
  | f => inr f
  end.

(** The literal [0.7]. *)
Definition lit_0_7 : spec_float := S754_finite false 6305039478318694 (-53).

Definition mul (x y : spec_float) : spec_float := SFmul prec emax x y.

(** [n > f] for an integer [n] and a float [f]; Python compares the two
    exactly, without rounding [n]. *)
Definition int_gt (n : Z) (f : spec_float) : bool :=
  match f with
  | S754_zero _ => 0 <? n
  | S754_infinity s => s
  | S754_nan => false
  | S754_finite s m e =>
      let v := if s then Z.neg m else Z.pos m in
      if 0 <=? e then v * 2 ^ e <? n else v <? n * 2 ^ (- e)
  end.

End Float64.

(** ** The strategy document

    The records follow the keys the validator reads; everything else in the
    document (fuel, pit_ops, costs, the remaining stint fields) is never
    looked at by [domain_validate_strategy]. *)

Record Stint := {
  stint_id : option Z;
  start_lap : option Z;
  planned_inlap : option Z;
  compound : option string;
  set_condition : option string;
  target_len_laps : option Z
}.

Module Yaml.

Record Track := { laps : option Z }.

Record Metadata := { track : option Track }.

Record Constraints := {
  allow_used_tyre : option bool;
  min_compounds_required : option Z;
  max_pitstops : option Z
}.

Record Assumptions := {
  constraints : option Constraints;
  tire_availability : option (gmap string Z)
}.

Record UserView := { planned_pit_laps : option (list Z) }.

Record Doc := {
  metadata : option Metadata;
  assumptions : option Assumptions;
  user_view : option UserView;
  stints : option (list Stint)
}.

(** What [yaml.safe_load] gave: an exception with its message, or the
    document. *)
Inductive Load :=
| Failure (msg : string)
| Loaded (data : Doc).

End Yaml.

(** The local variables bound by the second [try] block. *)
Record Locals := {
  total_laps : Z;
  inv : gmap string Z;
  allow_used : bool;
  min_compounds : Z;
  max_pitstops : Z;
  stints : list Stint;
  uv_pit_laps : list Z
}.

(** The second [try] block.  Only the two subscripts on [data] and the one
    on [track] can fail, with a [KeyError] whose text is the quoted key. *)
Definition extract (data : Yaml.Doc) : string + Locals :=
  match Yaml.metadata data with
  | None => inl "'metadata'"
  | Some md =>
      match Yaml.track md with
      | None => inl "'track'"
      | Some tr =>
          match Yaml.laps tr with
          | None => inl "'laps'"
          | Some n =>
              let constraints := Yaml.assumptions data ≫= Yaml.constraints in
              inr {| total_laps := n;
                     inv := default ∅ (Yaml.assumptions data ≫= Yaml.tire_availability);
                     allow_used := default false (constraints ≫= Yaml.allow_used_tyre);
                     min_compounds := default 0 (constraints ≫= Yaml.min_compounds_required);
                     max_pitstops := default 99 (constraints ≫= Yaml.max_pitstops);
                     stints := default [] (Yaml.stints data);
                     uv_pit_laps := default [] (Yaml.user_view data ≫= Yaml.planned_pit_laps) |}
          end
      end
  end.

(** ** Messages

    The validator appends formatted strings to [errors] and [warnings].
    Here each message keeps its origin and its arguments, and [Msg.err] and
    [Msg.warn] give the string the source formats. *)

Inductive Err :=
| MinStints
| Diversity (used : nat) (required : Z)
| MaxStops (actual_stops : nat) (limit : Z)
| OnlyFinal (prev_id : option Z)
| Continuity (prev_id cur_id : option Z) (expected got : Z)
| Summary (uv expected : list Z)
| UsedSet (id : option Z)
| InvExceed (count : Z) (ck : string) (have : Z)
| InvMissing (ck : string) (count : Z).

Inductive Warn :=
| Marathon (comp : string) (tlen : Z).

Module Msg.
Import Py.

Definition err (e : Err) : string :=
  match e with
  | MinStints =>
      "Must schedule ≥ 2 stints for dry/normal conditions; found < 2."
  | Diversity n req =>
      "Uses " +:+ str_int (Z.of_nat n) +:+ " dry compound(s) but min_compounds_required="
        +:+ str_int req +:+ "."
  | MaxStops a m =>
      "Planned stops=" +:+ str_int (Z.of_nat a) +:+ " exceed max_pitstops="
        +:+ str_int m +:+ "."
  | OnlyFinal p =>
      "Only final stint may have planned_inlap=0; found at stint_id="
        +:+ str_opt_int p +:+ "."
  | Continuity p c expected got =>
      "Stint continuity violated between stint_id=" +:+ str_opt_int p
        +:+ " and " +:+ str_opt_int c
        +:+ " (expected start_lap=" +:+ str_int expected
        +:+ ", got " +:+ str_int got +:+ ")."
  | Summary uv expected =>
      "user_view.planned_pit_laps " +:+ str_list_int uv
        +:+ " must equal non-zero planned_inlap " +:+ str_list_int expected +:+ "."
  | UsedSet i =>
      "allow_used_tyre=false but stint_id=" +:+ str_opt_int i
        +:+ " uses 'used' set."
  | InvExceed count ck have =>
      "Stints require " +:+ str_int count +:+ " of " +:+ ck
        +:+ " but inventory has " +:+ str_int have +:+ "."
  | InvMissing ck count =>
      "Inventory missing " +:+ ck +:+ "; cannot allocate "
        +:+ str_int count +:+ " set(s)."
  end.

Definition warn (w : Warn) : string :=
  match w with
  | Marathon comp tlen =>
      "Dry stint " +:+ comp +:+ " length " +:+ str_int tlen
        +:+ " laps > 70% of race; likely unrealistic."
  end.

End Msg.

(** ** The seven checks *)

Section Checks.
Import Py.

(** The layout of the one set the validator builds. *)
Context (h : SetLayout).

Definition wet_set : list string := ["Wet"; "Intermediate"].
Definition dry_set : list string := ["Soft"; "Medium"; "Hard"].

Definition is_wet (c : string) : bool := bool_decide (c ∈ wet_set).
Definition is_dry (c : string) : bool := bool_decide (c ∈ dry_set).

(** [compounds = [s.get("compound", '').strip() for s in stints]] *)
Definition compounds (stints : list Stint) : list string :=
  map (λ s, strip (default EmptyString (compound s))) stints.

Definition only_wet (stints : list Stint) : bool :=
  forallb is_wet (compounds stints) && (0 <? Z.of_nat (length (compounds stints))).

(** 1) at least two stints unless every compound is a wet one *)
Definition check_min_stints (stints : list Stint) : list Err :=
  if (Z.of_nat (length stints) <? 2) && negb (only_wet stints)
  then [MinStints] else [].

Definition dry_compounds_used (stints : list Stint) : list string :=
  set_of h (filter (λ c, is_dry c = true) (compounds stints)).

(** 2) minimum number of distinct dry compounds, if any dry compound appears *)
Definition check_diversity (min_compounds : Z) (stints : list Stint) : list Err :=
  let used := dry_compounds_used stints in
  if negb (bool_decide (used = [])) && (0 <? min_compounds) then
    if Z.of_nat (length used) <? min_compounds
    then [Diversity (length used) min_compounds] else []
  else [].

(** [planned_inlaps = [int(s.get("planned_inlap", 0) or 0) for s in stints]] *)
Definition planned_inlaps (stints : list Stint) : list Z :=
  map (λ s, int_or0 (planned_inlap s)) stints.

(** [len([x for x in planned_inlaps if x and x > 0])] *)
Definition actual_stops (stints : list Stint) : nat :=
  length (filter (λ x, negb (x =? 0) && (0 <? x) = true) (planned_inlaps stints)).

(** 3) pit-stop ceiling *)
Definition check_max_pitstops (max_pitstops : Z) (stints : list Stint) : list Err :=
  if max_pitstops <? Z.of_nat (actual_stops stints)
  then [MaxStops (actual_stops stints) max_pitstops] else [].

(** The body of the continuity loop at index [i]. *)
Definition continuity_step (stints : list Stint) (i : nat) : list Err :=
  match stints !! (i - 1)%nat, stints !! i with
  | Some prev, Some cur =>
      let prev_in := int_or0 (planned_inlap prev) in
      let cur_start := int_or0 (start_lap cur) in
      (if (prev_in =? 0) && negb (Z.of_nat i =? Z.of_nat (length stints) - 1)
       then [OnlyFinal (stint_id prev)] else [])
      ++
      (if negb (prev_in =? 0) && negb (cur_start =? prev_in + 1)
       then [Continuity (stint_id prev) (stint_id cur) (prev_in + 1) cur_start]
       else [])
  | _, _ => []
  end.

(** 4) continuity: [for i in range(1, len(stints))] *)
Definition check_continuity (stints : list Stint) : list Err :=
  flat_map (continuity_step stints) (seq 1 (length stints - 1)).

(** [expected_uv = sorted([x for x in planned_inlaps if x > 0])] *)
Definition expected_uv (stints : list Stint) : list Z :=
  sorted (filter (λ x, 0 < x) (planned_inlaps stints)).

(** 5) the summary in [user_view] against the stints *)
Definition check_summary (uv_pit_laps : list Z) (stints : list Stint) : list Err :=
  if bool_decide (uv_pit_laps ≠ expected_uv stints)
  then [Summary uv_pit_laps (expected_uv stints)] else [].

(** The dictionary [usage], in insertion order: [usage.get(key)] and
    [usage[key] = v].  Assigning to a key that is present keeps its place. *)
Fixpoint dict_get (key : string) (d : list (string * Z)) : option Z :=
  match d with
  | [] => None
  | (k, v) :: rest => if decide (k = key) then Some v else dict_get key rest
  end.

Fixpoint dict_set (key : string) (v : Z) (d : list (string * Z)) : list (string * Z) :=
  match d with
  | [] => [(key, v)]
  | (k, c) :: rest =>
      if decide (k = key) then (k, v) :: rest
      else (k, c) :: dict_set key v rest
  end.

(** [f"{comp}_{cond}"] for one stint *)
Definition usage_key (s : Stint) : string :=
  default EmptyString (compound s) +:+ "_" +:+ default "new" (set_condition s).

(** 6), first loop: tally the usage and enforce [allow_used_tyre]. *)
Fixpoint usage_loop (allow_used : bool) (stints : list Stint)
    (usage : list (string * Z)) : list (string * Z) * list Err :=
  match stints with
  | [] => (usage, [])
  | s :: rest =>
      let cond := default "new" (set_condition s) in
      let key := usage_key s in
      let usage' := dict_set key (default 0 (dict_get key usage) + 1) usage in
      let here :=
        if bool_decide (cond = "used") && negb allow_used
        then [UsedSet (stint_id s)] else [] in
      let '(u, later) := usage_loop allow_used rest usage' in
      (u, here ++ later)
  end.

(** The body of the second loop of 6) for one item of [usage]. *)
Definition inventory_step (inv : gmap string Z) (item : string * Z) : list Err :=
  let '(key, count) := item in
  match split "_" key with
  | [p0; p1] =>
      let ck := p0 +:+ "_" +:+ p1 in
      match inv !! ck with
      | Some have => if have <? count then [InvExceed count ck have] else []
      | None => [InvMissing ck count]
      end
  | _ => []
  end.

(** 6) inventory and used-tyre policy *)
Definition check_inventory (allow_used : bool) (inv : gmap string Z)
    (stints : list Stint) : list Err :=
  let '(usage, errs) := usage_loop allow_used stints [] in
  errs ++ flat_map (inventory_step inv) usage.

(** [tlen > 0.7 * total_laps] *)
Definition over_70_percent (tlen total_laps : Z) : Exn + bool :=
  match Float64.of_int total_laps with
  | inl e => inl e
  | inr n => inr (Float64.int_gt tlen (Float64.mul Float64.lit_0_7 n))
  end.

(** 7) over-long dry stints; the product is evaluated once per dry stint *)
Fixpoint check_marathon (total_laps : Z) (stints : list Stint) : Exn + list Warn :=
  match stints with
  | [] => inr []
  | s :: rest =>
      let comp := default EmptyString (compound s) in
      if is_dry comp then
        let tlen := int_or0 (target_len_laps s) in
        match over_70_percent tlen total_laps with
        | inl e => inl e
        | inr b =>
            match check_marathon total_laps rest with
            | inl e => inl e
            | inr ws => inr ((if b then [Marathon comp tlen] else []) ++ ws)
            end
        end
      else check_marathon total_laps rest
  end.

(** The list [errors] once checks 1 to 6 have run. *)
Definition errors_of (l : Locals) : list Err :=
  check_min_stints (stints l)
  ++ check_diversity (min_compounds l) (stints l)
  ++ check_max_pitstops (max_pitstops l) (stints l)
  ++ check_continuity (stints l)
  ++ check_summary (uv_pit_laps l) (stints l)
  ++ check_inventory (allow_used l) (inv l) (stints l).

(** The list [warnings] once check 7 has run, unless it raised. *)
Definition warnings_of (l : Locals) : Exn + list Warn :=
  check_marathon (total_laps l) (stints l).

(** The final [if errors: ... if warnings: ... return "OK"]. *)
Definition render (errors warnings : list string) : string :=
  match errors with
  | _ :: _ =>
      "ERRORS:
- " +:+ join "
- " errors
      +:+ match warnings with
          | _ :: _ => "

WARNINGS:
- " +:+ join "
- " warnings
          | [] => EmptyString
          end
  | [] =>
      match warnings with
      | _ :: _ => "WARNINGS:
- " +:+ join "
- " warnings
      | [] => "OK"
      end
  end.

(** What a call does: it returns a text, or an exception leaves it. *)
Inductive Outcome :=
| Returned (text : string)
| Raised (e : Exn).

(** Everything after the second [try] block. *)
Definition validate_locals (l : Locals) : Outcome :=
  match warnings_of l with
  | inl e => Raised e
  | inr ws => Returned (render (map Msg.err (errors_of l)) (map Msg.warn ws))
  end.

Definition domain_validate_strategy (y : Yaml.Load) : Outcome :=
  match y with
  | Yaml.Failure msg => Returned ("YAML parse error: " +:+ msg)
  | Yaml.Loaded data =>
      match extract data with
      | inl msg => Returned ("Domain parse error: " +:+ msg)
      | inr l => validate_locals l
      end
  end.

End Checks.

(** ** Vocabulary of the properties *)

(** Which of the six blocking checks a message comes from. *)
Definition origin (e : Err) : nat :=
  match e with
  | MinStints => 1
  | Diversity _ _ => 2
  | MaxStops _ _ => 3
  | OnlyFinal _ | Continuity _ _ _ _ => 4
  | Summary _ _ => 5
  | UsedSet _ | InvExceed _ _ _ | InvMissing _ _ => 6
  end.

(** The messages of the used-tyre policy. *)
Definition is_used_set (e : Err) : bool :=
  match e with UsedSet _ => true | _ => false end.

(** A stint is on a dry compound, as check 7 tests it (no [strip] there). *)
Definition on_dry_compound (s : Stint) : Prop :=
  is_dry (default EmptyString (compound s)) = true.

(** The number of stints filed under [key]. *)
Definition key_count (key : string) (ss : list Stint) : Z :=
  Z.of_nat (length (filter (λ s, usage_key s = key) ss)).

(** The outcomes that let a plan through: the text OK, or a report made of
    warnings alone. *)
Definition accepted (o : Outcome) : Prop :=
  o = Returned "OK" ∨ ∃ ws, ws ≠ [] ∧ o = Returned (render [] ws).

(** The two quantities as the specification words them, over the non-zero
    [planned_inlap] values; the validator's own are [actual_stops] and
    [expected_uv], over the positive ones. *)
Definition nonzero_stops (ss : list Stint) : nat :=
  length (filter (λ x, x ≠ 0) (planned_inlaps ss)).

Definition nonzero_inlaps_ascending (ss : list Stint) : list Z :=
  Py.sorted (filter (λ x, x ≠ 0) (planned_inlaps ss)).

(** Check 6, second half, as the specification words it: every key that a
    stint uses is compared with the inventory, or reported missing. *)
Definition every_used_key_checked (h : Py.SetLayout) (l : Locals) : Prop :=
  ∀ s, s ∈ stints l →
    match inv l !! usage_key s with
    | Some have =>
        have < key_count (usage_key s) (stints l) →
        InvExceed (key_count (usage_key s) (stints l)) (usage_key s) have
          ∈ errors_of h l
    | None =>
        InvMissing (usage_key s) (key_count (usage_key s) (stints l))
          ∈ errors_of h l
    end.

(** The same plan with other target lengths and another race length. *)
Definition set_lengths (len : Stint → option Z) (race_laps : Z) (l : Locals) : Locals :=
  {| total_laps := race_laps; inv := inv l; allow_used := allow_used l;
     min_compounds := min_compounds l; max_pitstops := max_pitstops l;
     stints :=
       map (λ s, {| stint_id := stint_id s; start_lap := start_lap s;
                    planned_inlap := planned_inlap s; compound := compound s;
                    set_condition := set_condition s;
                    target_len_laps := len s |}) (stints l);
     uv_pit_laps := uv_pit_laps l |}.

(** The largest [tlen] that is not above seven tenths of [race_laps], plus
    one, passes the float test of check 7. *)
Definition threshold_agrees (race_laps : Z) : bool :=
  match over_70_percent (7 * race_laps / 10 + 1) race_laps with
  | inr true => true
  | _ => false
  end.

(** ** Sample documents *)

Definition stint (id start inlap : Z) (comp cond : string) (tlen : Z) : Stint :=
  {| stint_id := Some id; start_lap := Some start; planned_inlap := Some inlap;
     compound := Some comp; set_condition := Some cond;
     target_len_laps := Some tlen |}.

Definition document (race_laps : Z) (c : option Yaml.Constraints)
    (inventory : list (string * Z)) (pit_laps : list Z) (ss : list Stint) : Yaml.Doc :=
    {| Yaml.metadata := Some {| Yaml.track := Some {| Yaml.laps := Some race_laps |} |};
       Yaml.assumptions :=
         Some {| Yaml.constraints := c;
                 Yaml.tire_availability := Some (list_to_map inventory) |};
       Yaml.user_view := Some {| Yaml.planned_pit_laps := Some pit_laps |};
       Yaml.stints := Some ss |}.

Definition limits (used_ok : bool) (min_c max_p : Z) : option Yaml.Constraints :=
  Some {| Yaml.allow_used_tyre := Some used_ok;
          Yaml.min_compounds_required := Some min_c;
          Yaml.max_pitstops := Some max_p |}.

(** A plan of two stints whose first stint never stops ([planned_inlap = 0])
    although a second one, starting at lap 20, follows it. *)
Definition open_ended_first_stint : Yaml.Doc :=
  document 57 (limits false 2 2)
    [("Soft_new", 1); ("Medium_new", 1)] []
    [stint 1 1 0 "Soft" "new" 19; stint 2 20 0 "Medium" "new" 38].

(** Scenario A: three stints on wet-weather compounds, two stops at laps 17
    and 38, [min_compounds_required = 2], and an inventory holding
    [Wet_new: 1] and [Intermediate_new: intermediate_new].  What the
    scenario leaves open is a parameter. *)
Definition scenario_A_stints (id1 id2 id3 len1 len2 len3 : option Z) : list Stint :=
  [ {| stint_id := id1; start_lap := Some 1; planned_inlap := Some 17;
       compound := Some "Intermediate"; set_condition := Some "new";
       target_len_laps := len1 |};
    {| stint_id := id2; start_lap := Some 18; planned_inlap := Some 38;
       compound := Some "Wet"; set_condition := Some "new";
       target_len_laps := len2 |};
    {| stint_id := id3; start_lap := Some 39; planned_inlap := Some 0;
       compound := Some "Intermediate"; set_condition := Some "new";
       target_len_laps := len3 |} ].

Definition scenario_A (race_laps : Z) (used_ok : option bool) (max_p : option Z)
    (id1 id2 id3 len1 len2 len3 : option Z) (intermediate_new : Z) : Yaml.Doc :=
    {| Yaml.metadata := Some {| Yaml.track := Some {| Yaml.laps := Some race_laps |} |};
       Yaml.assumptions :=
         Some {| Yaml.constraints :=
                   Some {| Yaml.allow_used_tyre := used_ok;
                           Yaml.min_compounds_required := Some 2;
                           Yaml.max_pitstops := max_p |};
                 Yaml.tire_availability :=
                   Some (list_to_map [("Intermediate_new", intermediate_new);
                                      ("Wet_new", 1)]) |};
       Yaml.user_view := Some {| Yaml.planned_pit_laps := Some [17; 38] |};
       Yaml.stints := Some (scenario_A_stints id1 id2 id3 len1 len2 len3) |}.

(** A one-stint plan whose [planned_inlap] is negative. *)
Definition negative_inlap_plan (pit_laps : list Z) (max_p : Z) : Locals :=
  {| total_laps := 57; inv := {["Soft_new" := 1]}; allow_used := false;
     min_compounds := 1; max_pitstops := max_p;
     stints := [stint 1 1 (-5) "Soft" "new" 20];
     uv_pit_laps := pit_laps |}.

(** A plan with a compound name that contains an underscore and that the
    inventory does not list. *)
Definition underscore_compound_plan : Locals :=
  {| total_laps := 57; inv := {["Soft_new" := 1]}; allow_used := false;
     min_compounds := 0; max_pitstops := 99;
     stints := [stint 1 1 20 "Super_Soft" "new" 20; stint 2 21 0 "Soft" "new" 37];
     uv_pit_laps := [20] |}.

(** A plan with a used set of hards that the inventory does not list. *)
Definition used_hard_plan : Locals :=
  {| total_laps := 57; inv := {["Soft_new" := 1]}; allow_used := false;
     min_compounds := 2; max_pitstops := 2;
     stints := [stint 1 1 20 "Soft" "new" 20; stint 2 21 0 "Hard" "used" 37];
     uv_pit_laps := [20] |}.

(** A document whose constraints say nothing about used sets. *)
Definition silent_on_used_sets : Yaml.Doc :=
  {| Yaml.metadata := Some {| Yaml.track := Some {| Yaml.laps := Some 57 |} |};
     Yaml.assumptions :=
       Some {| Yaml.constraints :=
                 Some {| Yaml.allow_used_tyre := None;
                         Yaml.min_compounds_required := Some 2;
                         Yaml.max_pitstops := Some 2 |};
               Yaml.tire_availability := Some {["Soft_new" := 1]} |};
     Yaml.user_view := Some {| Yaml.planned_pit_laps := Some [20] |};
     Yaml.stints := Some [stint 1 1 20 "Soft" "new" 20; stint 2 21 0 "Hard" "used" 37] |}.

(** A plan that breaks checks 1, 3 and 6 at once: a single stint, on a used
    set of softs that used sets are not allowed for, with a stop at lap 20
    under [max_pitstops = 0].  The race length is a parameter. *)
Definition lone_used_soft_stint (race_laps : Z) : Yaml.Doc :=
  document race_laps (limits false 1 0) [("Soft_used", 1)] [20]
    [stint 1 1 20 "Soft" "used" 20].

(** Scenario E: a hard stint of 45 laps in a race of 57. *)
Definition scenario_E_document : Yaml.Doc :=
  document 57 (limits false 2 2) [("Medium_new", 1); ("Hard_new", 1)] [12]
    [stint 1 1 12 "Medium" "new" 12; stint 2 13 0 "Hard" "new" 45].

Definition scenario_E : Locals :=
  {| total_laps := 57;
     inv := list_to_map [("Medium_new", 1); ("Hard_new", 1)];
     allow_used := false; min_compounds := 2; max_pitstops := 2;
     stints := [stint 1 1 12 "Medium" "new" 12; stint 2 13 0 "Hard" "new" 45];
     uv_pit_laps := [12] |}.

(** ** Vocabulary of the further properties *)

(** The compound of a stint as checks 1 and 2 read it. *)
Definition stripped_compound (s : Stint) : string :=
  Py.strip (default EmptyString (compound s)).

(** The number of distinct dry compounds of a plan. *)
Definition distinct_dry (ss : list Stint) : nat :=
  length (remove_dups (filter (λ c, is_dry c = true) (compounds ss))).

(** The plans that checks 1 to 6 let through, in terms of the plan alone. *)
Definition acceptable (l : Locals) : Prop :=
  (stints l ≠ [] ∧ ∀ s, stints l = [s] → stripped_compound s ∈ wet_set)
  ∧ (distinct_dry (stints l) = 0%nat
     ∨ min_compounds l ≤ Z.of_nat (distinct_dry (stints l)))
  ∧ Z.of_nat (actual_stops (stints l)) ≤ max_pitstops l
  ∧ (∀ i prev cur,
       stints l !! i = Some prev → stints l !! S i = Some cur →
       if decide (Py.int_or0 (planned_inlap prev) = 0)
       then (i + 2 = length (stints l))%nat
       else Py.int_or0 (start_lap cur) = Py.int_or0 (planned_inlap prev) + 1)
  ∧ uv_pit_laps l = expected_uv (stints l)
  ∧ (allow_used l = true ∨ ∀ s, s ∈ stints l → set_condition s ≠ Some "used")
  ∧ (∀ s, s ∈ stints l → length (Py.split "_" (usage_key s)) = 2%nat →
       ∃ have, inv l !! usage_key s = Some have
               ∧ key_count (usage_key s) (stints l) ≤ have).

(** A plan that is let through: two dry compounds, one stop, sets in stock. *)
Definition one_stop_plan : Locals :=
  {| total_laps := 57;
     inv := list_to_map [("Medium_new", 1); ("Hard_new", 1)];
     allow_used := false; min_compounds := 2; max_pitstops := 2;
     stints := [stint 1 1 25 "Medium" "new" 25; stint 2 26 0 "Hard" "new" 32];
     uv_pit_laps := [25] |}.

(** A document without stints whose summary still announces a stop. *)
Definition empty_plan : Locals :=
  {| total_laps := 57; inv := ∅;
     allow_used := false; min_compounds := 2; max_pitstops := 3;
     stints := []; uv_pit_laps := [17] |}.

(** * The completeness check

    [check_yaml_completeness] of [tools/strat.py], and its copy [check_yaml]
    of [agents/strategy_generator.py], look at the top-level mapping only:
    which of the seven sections are there, and whether the list under
    [stints] is empty.  The document is the one the validator reads, with a
    flag for each of the three sections the validator never touches. *)

Module Complete.

Record Top := {
  doc : Yaml.Doc;
  has_version : bool;
  has_pit_ops : bool;
  has_costs : bool
}.

Definition required : list string :=
  ["version"; "metadata"; "assumptions"; "user_view"; "stints"; "pit_ops"; "costs"].

(** [key in data], for the keys the check asks about. *)
Definition has_key (data : Top) (key : string) : bool :=
  if decide (key = "version") then has_version data
  else if decide (key = "metadata") then bool_decide (is_Some (Yaml.metadata (doc data)))
  else if decide (key = "assumptions") then bool_decide (is_Some (Yaml.assumptions (doc data)))
  else if decide (key = "user_view") then bool_decide (is_Some (Yaml.user_view (doc data)))
  else if decide (key = "stints") then bool_decide (is_Some (Yaml.stints (doc data)))
  else if decide (key = "pit_ops") then has_pit_ops data
  else if decide (key = "costs") then has_costs data
  else false.

(** [not data["stints"] or len(data["stints"]) == 0] *)
Definition stints_empty (data : Top) : bool :=
  match Yaml.stints (doc data) with
  | Some (_ :: _) => false
  | _ => true
  end.

(** The argument is what [yaml.safe_load] gave: the message of the
    exception it raised, or the mapping. *)
Definition check_yaml_completeness (loaded : string + Top) : string :=
  match loaded with
  | inl e => "PARSE ERROR: " +:+ e
  | inr data =>
      let missing := filter (λ s, has_key data s = false) required in
      if negb (bool_decide (missing = [])) then
        "INCOMPLETE: Missing sections: " +:+ Py.join ", " missing
      else if has_key data "stints" && stints_empty data then
        "INCOMPLETE: stints section is empty"
      else "COMPLETE"
  end.

End Complete.

(** Scenario E with all seven sections. *)
Definition scenario_E_top : Complete.Top :=
  {| Complete.doc := scenario_E_document; Complete.has_version := true;
     Complete.has_pit_ops := true; Complete.has_costs := true |}.

(** * The strategy store and what is built on it

    [db.py] keeps the strategies in one table, [strategies(name, details)],
    written with [ON CONFLICT (name) DO UPDATE]: a finite map from names to
    documents.  The module-level connection is there or not; every function
    starts by testing it.  Failures of the database itself (a lost
    connection, a refused statement) are outside this model. *)

Module Db.
Section Store.

(** The values inside a stored document; the store never looks into them. *)
Context {V : Type}.

Record State := {
  connected : bool;
  strategies : gmap string (gmap string V)
}.

(** [SELECT name FROM strategies] has no [ORDER BY]: the rows come in an
    order of the server's choosing. *)
Record Scan := {
  rows : gmap string (gmap string V) → list string;
  rows_perm : ∀ t, rows t ≡ₚ elements (dom t)
}.

(** What [load_strategy] does: it returns a document or raises [ValueError]. *)
Inductive Loaded :=
| Found (details : gmap string V)
| ValueError (msg : string).

Definition load_strategy (st : State) (strategy_name : string) : Loaded :=
  if negb (connected st) then Found ∅
  else match strategies st !! strategy_name with
       | Some details => Found details
       | None => ValueError ("Strategy '" +:+ strategy_name +:+ "' not found.")
       end.

Definition save_strategy (st : State) (strategy_name : string)
    (strategy_details : gmap string V) : State :=
  if negb (connected st) then st
  else {| connected := connected st;
          strategies := <[strategy_name := strategy_details]> (strategies st) |}.

Definition remove_strategy (st : State) (strategy_name : string) : State :=
  if negb (connected st) then st
  else {| connected := connected st;
          strategies := delete strategy_name (strategies st) |}.

Definition list_strategies (scan : Scan) (st : State) : list string :=
  if negb (connected st) then [] else rows scan (strategies st).

End Store.
Arguments State : clear implicits.
Arguments Scan : clear implicits.
Arguments Loaded : clear implicits.
End Db.

(** The two routes of [api.py]. *)

Module Api.
Section Routes.
Import Db.

Context {V : Type}.

(** [yaml.safe_dump] and the order of the rows. *)
Context (safe_dump : gmap string V → string) (scan : Scan V).

Inductive Response :=
| YamlText (text : string)
| Strategies (strategies_yaml : gmap string (option string))
| Message (message : string)
| Error (status : Z) (error : string) (detail : option string).

(** [GET /strategies]; [name] is [request.args.get("name")]. *)
Definition get_strategies (st : State V) (name : option string) : Response :=
  match name with
  | Some (String c rest) =>
      match load_strategy st (String c rest) with
      | Found strategy => YamlText (safe_dump strategy)
      | ValueError e => Error 404 e None
      end
  | _ =>
      Strategies
        (foldl (λ strategies_yaml n,
                  <[n := match load_strategy st n with
                         | Found s => Some (safe_dump s)
                         | ValueError _ => None
                         end]> strategies_yaml)
               ∅ (list_strategies scan st))
  end.

(** [for n in names: if n != keep: remove_strategy(n)] *)
Definition remove_others (keep : string) (st : State V) (names : list string) : State V :=
  foldl (λ s n, if decide (n ≠ keep) then remove_strategy s n else s) st names.

(** [POST /strategies]; [body] is [request.data.decode("utf-8")], or the
    message of the decoding error. *)
Definition update_main_strategy (st : State V) (body : string + string)
    : Response * State V :=
  match body with
  | inl e => (Error 500 "internal server error" (Some e), st)
  | inr text =>
      let name := Py.strip text in
      match name with
      | EmptyString => (Error 400 "strategy name is required" None, st)
      | _ =>
          match load_strategy st name with
          | ValueError e => (Error 500 "internal server error" (Some e), st)
          | Found strategy =>
              if (size strategy =? 0)%nat then
                (Error 404 ("strategy '" +:+ name +:+ "' not found") None, st)
              else
                let st1 := save_strategy st "default_strategy" strategy in
                let st2 := remove_others "default_strategy" st1
                             (list_strategies scan st1) in
                (Message ("strategy '" +:+ name +:+ "' set as main successfully"), st2)
          end
      end
  end.

End Routes.
Arguments Response : clear implicits.
End Api.

(** The two tools of [tools/strat.py] that go to the store. *)

Module Tools.
Section StrategyTools.
Import Db.

Context {V : Type}.

(** [yaml.dump] *)
Context (dump : gmap string V → string).

(** A loaded document, with the one value [save_updated_strategy] reads
    from it: [data.get("metadata", {}).get("strategy_name")]. *)
Record Document := {
  strategy_name : option string;
  content : gmap string V
}.

(** The argument is what [yaml.safe_load] gave: the message of the
    exception it raised, or the document. *)
Definition save_updated_strategy (st : State V) (loaded : string + Document)
    : string * State V :=
  match loaded with
  | inl e => ("ERROR saving strategy: " +:+ e, st)
  | inr data =>
      let name := default "default_strategy" (strategy_name data) in
      ("SAVED strategy " +:+ name +:+ " to database.",
       save_strategy st name (content data))
  end.

(** [read_strategy_yaml] has no handler: the [ValueError] of the store
    leaves it ([inl]). *)
Definition read_strategy_yaml (st : State V) (strategy : string) : string + string :=
  match load_strategy st strategy with
  | Found details => inr (dump details)
  | ValueError e => inl e
  end.

End StrategyTools.
Arguments Document : clear implicits.
End Tools.

(** * The justification report ([agents/report_generator.py]) *)

Module Justify.

(** The parsed payload, as far as the tool reads it. *)
Record Source := { src_type : option string }.

Record Change := {
  change_id : option string;
  sources : option (list Source)
}.

Record Payload := {
  has_strategy_id : bool;
  justifications : option (list Change)
}.

(** [any(src.get("type") == "FastF1" for src in ch.get("sources", []))] *)
Definition has_f1 (ch : Change) : bool :=
  existsb (λ src, bool_decide (src_type src = Some "FastF1"))
          (default [] (sources ch)).

(** The loop that collects [misses]. *)
Definition misses (j : Payload) : list string :=
  flat_map (λ ch, if has_f1 ch then [] else [default "?" (change_id ch)])
           (default [] (justifications j)).

Definition _require_fastf1_sources (j : Payload) : option string :=
  match misses j with
  | [] => None
  | ms =>
      Some ("Every change must have at least one FastF1 citation; missing: "
              +:+ Py.join ", " ms)
  end.

(** How the tool was called: without anything, with keyword fields that do
    not serialise, with a text that is not JSON, or with an object. *)
Inductive Call :=
| Nothing
| Unserialisable (e : string)
| NotJson (e : string)
| Object (obj : Payload).

(** What it returns: an error text, or [json.dumps(obj, indent=2)]. *)
Inductive Answer :=
| Refused (text : string)
| Echoed (obj : Payload).

Definition structured_justification_response (call : Call) : Answer :=
  match call with
  | Unserialisable e => Refused ("ERROR: failed to build JSON from kwargs: " +:+ e)
  | Nothing => Refused "ERROR: missing 'payload' (or equivalent keyword fields)."
  | NotJson e => Refused ("ERROR: invalid JSON: " +:+ e)
  | Object obj =>
      match misses obj with
      | (_ :: _) as ms =>
          Refused ("ERROR: Every change must have at least one FastF1 citation; missing: "
                     +:+ Py.join ", " ms)
      | [] =>
          if negb (has_strategy_id obj) || negb (bool_decide (is_Some (justifications obj)))
          then Refused "ERROR: payload must include 'strategy_id' and 'justifications'"
          else Echoed obj
      end
  end.

End Justify.

(** * The result text of the SQL tool ([tools/db.py])

    [records_to_csv] lets the [csv] module write the records into a buffer
    and returns a cut of the buffer.  The text is a list of characters of
    any kind, so that the cut counts characters as Python does; the writer
    is a parameter. *)

Module Csv.
Section Text.

Context {Ch : Type} `{EqDecision Ch}.

(** [s.rsplit(sep, 1)] when [sep] occurs in [s]: the text before and the
    text after its last occurrence. *)
Fixpoint rsplit1 (sep : Ch) (s : list Ch) : option (list Ch * list Ch) :=
  match s with
  | [] => None
  | c :: s' =>
      match rsplit1 sep s' with
      | Some (a, b) => Some (c :: a, b)
      | None => if decide (c = sep) then Some ([], s') else None
      end
  end.

(** [s.rsplit(sep, 1)[0]]: without an occurrence the list is [[s]]. *)
Definition rsplit1_first (sep : Ch) (s : list Ch) : list Ch :=
  match rsplit1 sep s with
  | Some (a, _) => a
  | None => s
  end.

(** The bound of the slice [[:10000]]. *)
Definition limit : nat := Z.to_nat 10000.

(** [newline] is the line feed; [getvalue records] is the content of the
    buffer after the header and the rows have been written. *)
Definition records_to_csv {R : Type} (newline : Ch) (getvalue : list R → list Ch)
    (records : list R) : list Ch :=
  match records with
  | [] => []
  | _ => rsplit1_first newline (take limit (getvalue records))
  end.

End Text.
End Csv.

(** * Properties *)

(** ** General facts about the embedding *)

(** Split a membership hypothesis over a concrete list into its cases. *)
Ltac elems H :=
  repeat (rewrite elem_of_app in H || rewrite elem_of_cons in H
          || rewrite elem_of_nil in H);
  intuition (subst; try discriminate; try done).

Section Facts.
Import Py.

Lemma elem_of_flat_map {A B} (f : A → list B) (l : list A) (y : B) :
  y ∈ flat_map f l ↔ ∃ x, x ∈ l ∧ y ∈ f x.
Proof.
  rewrite list_elem_of_In, in_flat_map.
  split; intros (x & Hx & Hy); exists x;
    [rewrite !list_elem_of_In | rewrite <- !list_elem_of_In]; done.
Qed.

Lemma elem_of_map {A B} (f : A → B) (l : list A) (y : B) :
  y ∈ map f l ↔ ∃ x, y = f x ∧ x ∈ l.
Proof.
  rewrite list_elem_of_In, in_map_iff.
  split; intros (x & Hx & Hy); exists x;
    [rewrite list_elem_of_In | rewrite <- list_elem_of_In]; done.
Qed.

(** [sorted] returns the ascending arrangement of its argument. *)
Lemma sorted_ascending (l : list Z) : Sorted Z.le (sorted l) ∧ sorted l ≡ₚ l.
Proof.
  split.
  - apply (Sorted_merge_sort Z.le).
  - apply merge_sort_Permutation.
Qed.

(** It is the only such arrangement, so any correct sort gives it. *)
Lemma sorted_unique (l l' : list Z) :
  Sorted Z.le l' → l' ≡ₚ l → l' = sorted l.
Proof.
  intros Hs Hp. apply (Sorted_unique Z.le); [done|apply sorted_ascending|].
  rewrite Hp. symmetry. apply sorted_ascending.
Qed.

(** The size of a set does not depend on its layout. *)
Lemma set_of_length (h1 h2 : SetLayout) (l : list string) :
  length (set_of h1 l) = length (set_of h2 l).
Proof.
  unfold set_of.
  rewrite (Permutation_length (arrange_perm h1 _)).
  by rewrite (Permutation_length (arrange_perm h2 _)).
Qed.

Lemma set_of_nil_iff (h : SetLayout) (l : list string) :
  set_of h l = [] ↔ l = [].
Proof.
  unfold set_of. split.
  - intros E. pose proof (arrange_perm h (remove_dups l)) as P.
    rewrite E in P. symmetry in P. apply Permutation_nil_r in P.
    destruct l as [|x l]; [done|].
    assert (x ∈ remove_dups (x :: l)) as Hin
      by (apply elem_of_remove_dups; left).
    rewrite P in Hin. by apply elem_of_nil in Hin.
  - intros ->. apply Permutation_nil_r, arrange_perm.
Qed.

Lemma check_diversity_layout (h1 h2 : SetLayout) (m : Z) (ss : list Stint) :
  check_diversity h1 m ss = check_diversity h2 m ss.
Proof.
  unfold check_diversity, dry_compounds_used.
  set (l := filter _ _).
  rewrite (set_of_length h1 h2).
  assert (bool_decide (set_of h1 l = []) = bool_decide (set_of h2 l = [])) as ->.
  { apply bool_decide_ext. by rewrite !set_of_nil_iff. }
  done.
Qed.

Lemma errors_of_layout (h1 h2 : SetLayout) (l : Locals) :
  errors_of h1 l = errors_of h2 l.
Proof. unfold errors_of. by rewrite (check_diversity_layout h1 h2). Qed.

Lemma origin_min_stints ss : Forall (λ e, origin e = 1%nat) (check_min_stints ss).
Proof. unfold check_min_stints. case_match; repeat constructor. Qed.

Lemma origin_diversity h m ss : Forall (λ e, origin e = 2%nat) (check_diversity h m ss).
Proof. unfold check_diversity. repeat case_match; repeat constructor. Qed.

Lemma origin_max_pitstops m ss : Forall (λ e, origin e = 3%nat) (check_max_pitstops m ss).
Proof. unfold check_max_pitstops. case_match; repeat constructor. Qed.

Lemma origin_continuity ss : Forall (λ e, origin e = 4%nat) (check_continuity ss).
Proof.
  apply Forall_forall. intros e He.
  apply elem_of_flat_map in He as (i & _ & He).
  unfold continuity_step in He.
  repeat case_match; elems He.
Qed.

Lemma origin_summary uv ss : Forall (λ e, origin e = 5%nat) (check_summary uv ss).
Proof. unfold check_summary. case_match; repeat constructor. Qed.

Lemma origin_usage_loop a ss u :
  Forall (λ e, origin e = 6%nat) (usage_loop a ss u).2.
Proof.
  revert u. induction ss as [|s ss IH]; intros u; simpl; [constructor|].
  specialize (IH (dict_set (usage_key s) (default 0 (dict_get (usage_key s) u) + 1) u)).
  destruct (usage_loop a ss _) as [u' later]. simpl in *.
  apply Forall_app. split; [|done].
  case_match; repeat constructor.
Qed.

Lemma origin_inventory a inv ss : Forall (λ e, origin e = 6%nat) (check_inventory a inv ss).
Proof.
  unfold check_inventory.
  pose proof (origin_usage_loop a ss []) as H.
  destruct (usage_loop a ss []) as [u errs]. simpl in H.
  apply Forall_app. split; [done|].
  apply Forall_forall. intros e He.
  apply elem_of_flat_map in He as ([k c] & _ & He).
  unfold inventory_step in He.
  repeat case_match; elems He.
Qed.

End Facts.

(** ** The layout of the set never shows in the result *)

Lemma validate_locals_layout (h1 h2 : Py.SetLayout) (l : Locals) :
  validate_locals h1 l = validate_locals h2 l.
Proof. unfold validate_locals. by rewrite (errors_of_layout h1 h2). Qed.

Lemma run_insertion_layout (h : Py.SetLayout) (y : Yaml.Load) :
  domain_validate_strategy h y = domain_validate_strategy Py.insertion_layout y.
Proof.
  destruct y as [msg|data]; simpl; [done|].
  destruct (extract data); [done|]. apply validate_locals_layout.
Qed.

(** C9. The validator is deterministic: whatever the state of the process it
    runs in (here, the hash layout of the one set it builds, the only thing
    it touches besides its argument), the same loaded document gives the same
    outcome, character for character. *)
Theorem validation_is_deterministic (h1 h2 : Py.SetLayout) (y : Yaml.Load) :
  domain_validate_strategy h1 y = domain_validate_strategy h2 y.
Proof.
  destruct y as [msg|data]; simpl; [reflexivity|].
  destruct (extract data) as [msg|l]; [reflexivity|].
  unfold validate_locals.
  rewrite (errors_of_layout h1 h2 l). reflexivity.
Qed.

(** ** Check 4: continuity *)

Section Continuity.
Import Py.

Lemma continuity_step_in (ss : list Stint) (i : nat) (e : Err) :
  (1 ≤ i < length ss)%nat →
  e ∈ continuity_step ss i → e ∈ check_continuity ss.
Proof.
  intros Hi He. apply elem_of_flat_map. exists i. split; [|done].
  apply elem_of_seq. lia.
Qed.

(** The second test of the loop body: a gap or an overlap after a stint that
    ends in a stop is always reported, with both ids and both laps. *)
Lemma continuity_error_recorded (ss : list Stint) (i : nat) (prev cur : Stint) :
  ss !! i = Some prev → ss !! S i = Some cur →
  int_or0 (planned_inlap prev) ≠ 0 →
  int_or0 (start_lap cur) ≠ int_or0 (planned_inlap prev) + 1 →
  Continuity (stint_id prev) (stint_id cur)
    (int_or0 (planned_inlap prev) + 1) (int_or0 (start_lap cur))
  ∈ check_continuity ss.
Proof.
  intros Hp Hc Hin Hst.
  apply (continuity_step_in ss (S i)).
  { apply lookup_lt_Some in Hc. lia. }
  unfold continuity_step. replace (S i - 1)%nat with i by lia.
  rewrite Hp, Hc. apply elem_of_app. right.
  apply Z.eqb_neq in Hin, Hst. rewrite Hin, Hst. simpl. by left.
Qed.

(** The first test of the loop body compares the index of [cur], not that
    of [prev], with the last index: a zero [planned_inlap] is reported for
    the stint at index [i] exactly when two more stints follow it. *)
Lemma only_final_recorded_iff (ss : list Stint) (id : option Z) :
  OnlyFinal id ∈ check_continuity ss ↔
  ∃ i prev, ss !! i = Some prev ∧ stint_id prev = id
            ∧ int_or0 (planned_inlap prev) = 0 ∧ (i + 2 < length ss)%nat.
Proof.
  split.
  - intros He. apply elem_of_flat_map in He as (i & Hi & He).
    apply elem_of_seq in Hi. unfold continuity_step in He.
    destruct (ss !! (i - 1)%nat) as [prev|] eqn:Hp; [|by apply elem_of_nil in He].
    destruct (ss !! i) as [cur|] eqn:Hc; [|by apply elem_of_nil in He].
    destruct (int_or0 (planned_inlap prev) =? 0) eqn:Hz; simpl in He.
    + destruct (Z.of_nat i =? Z.of_nat (length ss) - 1) eqn:Hl; simpl in He;
        [by apply elem_of_nil in He|].
      apply list_elem_of_singleton in He. injection He as ->.
      exists (i - 1)%nat, prev. apply Z.eqb_eq in Hz. apply Z.eqb_neq in Hl.
      repeat split; try done. lia.
    + case_match; elems He.
  - intros (i & prev & Hp & <- & Hz & Hi).
    destruct (ss !! S i) as [cur|] eqn:Hc.
    2: { apply lookup_ge_None in Hc. lia. }
    apply (continuity_step_in ss (S i)); [lia|].
    unfold continuity_step. replace (S i - 1)%nat with i by lia.
    rewrite Hp, Hc, Hz. apply elem_of_app. left.
    assert ((Z.of_nat (S i) =? Z.of_nat (length ss) - 1) = false) as ->
      by (apply Z.eqb_neq; lia).
    simpl. by left.
Qed.

End Continuity.

(** C1. With two stints, the first of which has [planned_inlap = 0], the
    pair (stint 1, stint 2) is adjacent and stint 1 is not the final stint,
    yet check 4 records nothing and the whole report is OK: the loop tests
    [i != len(stints) - 1] on the index of the later stint of the pair. *)
Theorem only_final_rule_skips_last_pair (h : Py.SetLayout) :
  check_continuity [stint 1 1 0 "Soft" "new" 19; stint 2 20 0 "Medium" "new" 38] = []
  ∧ domain_validate_strategy h (Yaml.Loaded open_ended_first_stint) = Returned "OK".
Proof.
  split; [reflexivity|].
  rewrite run_insertion_layout. vm_compute. reflexivity.
Qed.

(** ** Scenario A *)

Lemma errors_are_not_accepted (es ws : list string) :
  es ≠ [] → ¬ accepted (Returned (render es ws)).
Proof.
  intros Hes [H|(ws' & Hws & H)]; destruct es as [|e es]; try done.
  destruct ws' as [|w ws']; [done|]. simpl in H. discriminate.
Qed.

(** Counterexample for C2: with one set of new intermediates and two stints
    on them, the report is an ERRORS report. *)
Lemma scenario_A_is_rejected :
  ¬ accepted
      (domain_validate_strategy Py.insertion_layout
         (Yaml.Loaded (scenario_A 57 (Some false) (Some 2)
            (Some 1) (Some 2) (Some 3) (Some 17) (Some 21) (Some 19) 1))).
Proof.
  assert (domain_validate_strategy Py.insertion_layout
            (Yaml.Loaded (scenario_A 57 (Some false) (Some 2)
               (Some 1) (Some 2) (Some 3) (Some 17) (Some 21) (Some 19) 1))
          = Returned (render
              [Msg.err (InvExceed 2 "Intermediate_new" 1)] [])) as ->
    by (vm_compute; reflexivity).
  by apply errors_are_not_accepted.
Qed.

Lemma scenario_A_errors (h : Py.SetLayout) (race_laps : Z) (used_ok : option bool)
    (max_p : option Z) (id1 id2 id3 len1 len2 len3 : option Z) (n : Z) (l : Locals) :
  (∀ m, max_p = Some m → 2 ≤ m) →
  extract (scenario_A race_laps used_ok max_p id1 id2 id3 len1 len2 len3 n) = inr l →
  errors_of h l = if n <? 2 then [InvExceed 2 "Intermediate_new" n] else [].
Proof.
  intros Hmax [= <-].
  rewrite (errors_of_layout h Py.insertion_layout).
  unfold errors_of; simpl.
  assert (check_max_pitstops (default 99 max_p)
            (scenario_A_stints id1 id2 id3 len1 len2 len3) = []) as ->.
  { unfold check_max_pitstops.
    change (actual_stops (scenario_A_stints id1 id2 id3 len1 len2 len3)) with 2%nat.
    destruct max_p as [m|]; simpl.
    - specialize (Hmax m eq_refl). change (Z.of_nat 2) with 2.
      destruct (m <? 2) eqn:E; [apply Z.ltb_lt in E; lia | reflexivity].
    - reflexivity. }
  change (check_min_stints (scenario_A_stints id1 id2 id3 len1 len2 len3)) with (@nil Err).
  change (check_diversity Py.insertion_layout 2 (scenario_A_stints id1 id2 id3 len1 len2 len3)) with (@nil Err).
  change (check_continuity (scenario_A_stints id1 id2 id3 len1 len2 len3)) with (@nil Err).
  change (check_summary [17; 38] (scenario_A_stints id1 id2 id3 len1 len2 len3)) with (@nil Err).
  simpl.
  unfold check_inventory.
  change (usage_loop (default false used_ok) (scenario_A_stints id1 id2 id3 len1 len2 len3) [])
    with ([("Intermediate_new", 2); ("Wet_new", 1)], @nil Err).
  simpl app. unfold flat_map, inventory_step.
  change (Py.split "_" "Intermediate_new") with ["Intermediate"; "new"].
  change (Py.split "_" "Wet_new") with ["Wet"; "new"].
  cbv beta iota.
  change ("Intermediate" +:+ "_" +:+ "new") with "Intermediate_new".
  change ("Wet" +:+ "_" +:+ "new") with "Wet_new".
  rewrite lookup_insert_eq, lookup_insert_ne, lookup_insert_eq by done.
  simpl. destruct (n <? 2); reflexivity.
Qed.

Lemma scenario_A_outcome (h : Py.SetLayout) (race_laps : Z) (used_ok : option bool)
    (max_p : option Z) (id1 id2 id3 len1 len2 len3 : option Z) (n : Z) :
  (∀ m, max_p = Some m → 2 ≤ m) →
  domain_validate_strategy h
    (Yaml.Loaded (scenario_A race_laps used_ok max_p id1 id2 id3 len1 len2 len3 n))
  = Returned (render
      (map Msg.err (if n <? 2 then [InvExceed 2 "Intermediate_new" n] else [])) []).
Proof.
  intros Hmax. unfold domain_validate_strategy.
  destruct (extract _) as [msg|l] eqn:El; [discriminate El|].
  unfold validate_locals.
  rewrite (scenario_A_errors h _ _ _ _ _ _ _ _ _ n l Hmax El).
  injection El as <-. reflexivity.
Qed.

(** C2 (amended). In Scenario A, whatever the race length, the stint ids and
    the target lengths, and for any pit-stop limit of at least two or none at
    all, the only message is the inventory shortfall: two stints draw on
    [Intermediate_new] and one set is in stock, so the report is an ERRORS
    report with that single line.  With two sets in stock the same document
    is reported OK. *)
Theorem scenario_A_fails_on_inventory_only (h : Py.SetLayout) (race_laps : Z)
    (used_ok : option bool) (max_p : option Z)
    (id1 id2 id3 len1 len2 len3 : option Z) :
  (∀ m, max_p = Some m → 2 ≤ m) →
  domain_validate_strategy h
    (Yaml.Loaded (scenario_A race_laps used_ok max_p id1 id2 id3 len1 len2 len3 1))
  = Returned "ERRORS:
- Stints require 2 of Intermediate_new but inventory has 1."
  ∧ domain_validate_strategy h
      (Yaml.Loaded (scenario_A race_laps used_ok max_p id1 id2 id3 len1 len2 len3 2))
    = Returned "OK".
Proof.
  intros Hmax. split; rewrite scenario_A_outcome by exact Hmax; reflexivity.
Qed.

Lemma scenario_A_fails_on_inventory_only_witness :
  domain_validate_strategy Py.insertion_layout
    (Yaml.Loaded (scenario_A 57 (Some false) (Some 2)
       (Some 1) (Some 2) (Some 3) (Some 17) (Some 21) (Some 19) 1))
  = Returned "ERRORS:
- Stints require 2 of Intermediate_new but inventory has 1."
  ∧ domain_validate_strategy Py.insertion_layout
      (Yaml.Loaded (scenario_A 57 (Some false) (Some 2)
         (Some 1) (Some 2) (Some 3) (Some 17) (Some 21) (Some 19) 2))
    = Returned "OK".
Proof.
  apply (scenario_A_fails_on_inventory_only Py.insertion_layout 57 (Some false) (Some 2)).
  intros m [= <-]. lia.
Defined.

(** ** Where a message can come from *)

Lemma elem_of_errors_of (h : Py.SetLayout) (l : Locals) (e : Err) :
  e ∈ errors_of h l ↔
    e ∈ check_min_stints (stints l)
    ∨ e ∈ check_diversity h (min_compounds l) (stints l)
    ∨ e ∈ check_max_pitstops (max_pitstops l) (stints l)
    ∨ e ∈ check_continuity (stints l)
    ∨ e ∈ check_summary (uv_pit_laps l) (stints l)
    ∨ e ∈ check_inventory (allow_used l) (inv l) (stints l).
Proof. unfold errors_of. rewrite !elem_of_app. tauto. Qed.

Lemma origin_of_elem (k : nat) (es : list Err) (e : Err) :
  Forall (λ e, origin e = k) es → e ∈ es → origin e = k.
Proof. intros H He. by apply (proj1 (Forall_forall _ _) H). Qed.

(** A message of check [k] in the list [errors] was put there by check [k]. *)
Ltac by_origin H :=
  let Ho := fresh "Ho" in
  apply elem_of_errors_of in H;
  destruct H as [H|[H|[H|[H|[H|H]]]]];
  [ pose proof (origin_of_elem _ _ _ (origin_min_stints _) H) as Ho
  | pose proof (origin_of_elem _ _ _ (origin_diversity _ _ _) H) as Ho
  | pose proof (origin_of_elem _ _ _ (origin_max_pitstops _ _) H) as Ho
  | pose proof (origin_of_elem _ _ _ (origin_continuity _) H) as Ho
  | pose proof (origin_of_elem _ _ _ (origin_summary _ _) H) as Ho
  | pose proof (origin_of_elem _ _ _ (origin_inventory _ _ _) H) as Ho ];
  simpl in Ho; first [discriminate Ho | clear Ho].

(** Both continuity messages reach the report's list of errors. *)
Lemma continuity_errors_reported (h : Py.SetLayout) (l : Locals) (e : Err) :
  e ∈ check_continuity (stints l) → e ∈ errors_of h l.
Proof. intros H. apply elem_of_errors_of. do 3 right. by left. Qed.

(** ** Check 3: the pit-stop ceiling *)

Lemma actual_stops_positive (ss : list Stint) :
  actual_stops ss
  = length (filter (λ s, 0 < Py.int_or0 (planned_inlap s)) ss).
Proof.
  unfold actual_stops, planned_inlaps.
  induction ss as [|s ss IH]; [reflexivity|].
  simpl map. rewrite !filter_cons.
  destruct (decide (0 < Py.int_or0 (planned_inlap s))) as [Hp|Hp];
    case_decide as Hb; simpl; try (by rewrite IH).
  - exfalso. apply Hb. apply andb_true_iff. split.
    + apply negb_true_iff, Z.eqb_neq. lia.
    + by apply Z.ltb_lt.
  - exfalso. apply andb_true_iff in Hb as [_ Hb]. apply Z.ltb_lt in Hb. lia.
Qed.

Lemma max_stops_recorded_iff (h : Py.SetLayout) (l : Locals) (a : nat) (m : Z) :
  MaxStops a m ∈ errors_of h l ↔
    a = actual_stops (stints l) ∧ m = max_pitstops l
    ∧ max_pitstops l < Z.of_nat (actual_stops (stints l)).
Proof.
  split.
  - intros H. by_origin H. unfold check_max_pitstops in H.
    destruct (Z.ltb_spec (max_pitstops l) (Z.of_nat (actual_stops (stints l))));
      [|by apply elem_of_nil in H].
    apply list_elem_of_singleton in H. by injection H as -> ->.
  - intros (-> & -> & Hlt). apply elem_of_errors_of. do 2 right. left.
    unfold check_max_pitstops. apply Z.ltb_lt in Hlt. rewrite Hlt. by left.
Qed.

(** Counterexample for C5: one stint with [planned_inlap = -5] under
    [max_pitstops = 0].  One stint has a non-zero [planned_inlap], which
    exceeds the limit, and no pit-stop error is recorded. *)
Lemma ceiling_ignores_negative_inlap :
  ¬ ((∃ a m, MaxStops a m ∈ errors_of Py.insertion_layout (negative_inlap_plan [] 0))
     ↔ max_pitstops (negative_inlap_plan [] 0)
       < Z.of_nat (nonzero_stops (stints (negative_inlap_plan [] 0)))).
Proof.
  intros [_ H].
  destruct H as (a & m & H); [vm_compute; reflexivity|].
  apply max_stops_recorded_iff in H as (_ & _ & H).
  vm_compute in H. discriminate H.
Qed.

(** C5 (amended). [actual_stops] is the number of stints whose
    [planned_inlap] is strictly positive, and the pit-stop error, which
    carries [actual_stops] and [max_pitstops], is recorded exactly when
    [actual_stops > max_pitstops]. *)
Theorem pit_stop_ceiling_counts_positive_inlaps (h : Py.SetLayout) (l : Locals) :
  actual_stops (stints l)
  = length (filter (λ s, 0 < Py.int_or0 (planned_inlap s)) (stints l))
  ∧ (Z.of_nat (actual_stops (stints l)) > max_pitstops l ↔
       MaxStops (actual_stops (stints l)) (max_pitstops l) ∈ errors_of h l)
  ∧ (∀ a m, MaxStops a m ∈ errors_of h l →
       a = actual_stops (stints l) ∧ m = max_pitstops l)
  ∧ Msg.err (MaxStops (actual_stops (stints l)) (max_pitstops l))
    = "Planned stops=" +:+ Py.str_int (Z.of_nat (actual_stops (stints l)))
        +:+ " exceed max_pitstops=" +:+ Py.str_int (max_pitstops l) +:+ ".".
Proof.
  split; [apply actual_stops_positive|]. split; [|split; [|reflexivity]].
  - rewrite max_stops_recorded_iff. intuition lia.
  - intros a m H. apply max_stops_recorded_iff in H. tauto.
Qed.

(** When no [planned_inlap] is negative, positive and non-zero coincide. *)
Lemma nonzero_is_positive (ss : list Stint) :
  Forall (λ x, 0 ≤ x) (planned_inlaps ss) →
  filter (λ x, x ≠ 0) (planned_inlaps ss) = filter (λ x, 0 < x) (planned_inlaps ss)
  ∧ nonzero_stops ss = actual_stops ss.
Proof.
  intros H.
  assert (filter (λ x, x ≠ 0) (planned_inlaps ss)
          = filter (λ x, 0 < x) (planned_inlaps ss)) as E.
  { induction H as [|x xs Hx _ IH]; [reflexivity|].
    rewrite !filter_cons, IH. repeat case_decide; (reflexivity || lia). }
  split; [exact E|].
  unfold nonzero_stops, actual_stops. rewrite E. f_equal.
  clear. induction (planned_inlaps ss) as [|x xs IH]; [reflexivity|].
  rewrite !filter_cons, IH.
  repeat case_decide; try reflexivity; exfalso.
  - match goal with H : ¬ _ |- _ => apply H end.
    apply andb_true_iff. split;
      [apply negb_true_iff, Z.eqb_neq; lia | by apply Z.ltb_lt].
  - match goal with H : _ && _ = true |- _ =>
      apply andb_true_iff in H as [_ H]; apply Z.ltb_lt in H end. lia.
Qed.

(** ** Check 5: the summary in [user_view] *)

Lemma summary_recorded_iff (h : Py.SetLayout) (l : Locals) (uv e : list Z) :
  Summary uv e ∈ errors_of h l ↔
    uv = uv_pit_laps l ∧ e = expected_uv (stints l)
    ∧ uv_pit_laps l ≠ expected_uv (stints l).
Proof.
  split.
  - intros H. by_origin H. unfold check_summary in H.
    case_bool_decide as Hne; [|by apply elem_of_nil in H].
    apply list_elem_of_singleton in H. by injection H as -> ->.
  - intros (-> & -> & Hne). apply elem_of_errors_of. do 4 right. left.
    unfold check_summary. rewrite bool_decide_eq_true_2 by done. by left.
Qed.

(** Counterexample for C4: one stint with [planned_inlap = -5] and
    [planned_pit_laps = [-5]].  The summary equals the ascending non-zero
    values, and the summary error is recorded all the same. *)
Lemma summary_ignores_negative_inlap :
  ¬ ((∃ uv e, Summary uv e ∈ errors_of Py.insertion_layout (negative_inlap_plan [-5] 1))
     ↔ uv_pit_laps (negative_inlap_plan [-5] 1)
       ≠ nonzero_inlaps_ascending (stints (negative_inlap_plan [-5] 1))).
Proof.
  intros [H _]. apply H; [|vm_compute; reflexivity].
  exists [-5], []. apply summary_recorded_iff. by vm_compute.
Qed.

(** C4 (amended). The summary error is recorded if and only if
    [user_view.planned_pit_laps] differs, as a sequence, from the ascending
    arrangement of the strictly positive [planned_inlap] values; the message
    carries both sequences.  So a reordering, an omission or an extra entry
    each triggers it. *)
Theorem summary_error_iff_not_the_positive_inlaps (h : Py.SetLayout) (l : Locals) :
  (uv_pit_laps l ≠ expected_uv (stints l) ↔
     Summary (uv_pit_laps l) (expected_uv (stints l)) ∈ errors_of h l)
  ∧ (∀ uv e, Summary uv e ∈ errors_of h l →
       uv = uv_pit_laps l ∧ e = expected_uv (stints l))
  ∧ Sorted Z.le (expected_uv (stints l))
  ∧ expected_uv (stints l)
    ≡ₚ filter (λ x, 0 < x) (map (λ s, Py.int_or0 (planned_inlap s)) (stints l)).
Proof.
  split; [|split].
  - rewrite summary_recorded_iff. tauto.
  - intros uv e H. apply summary_recorded_iff in H. tauto.
  - apply sorted_ascending.
Qed.

(** On plans without a negative [planned_inlap] the expected summary is the
    ascending sequence of the non-zero values. *)
Lemma expected_uv_nonzero (ss : list Stint) :
  Forall (λ x, 0 ≤ x) (planned_inlaps ss) →
  expected_uv ss = nonzero_inlaps_ascending ss.
Proof.
  intros H. unfold expected_uv, nonzero_inlaps_ascending.
  by rewrite (proj1 (nonzero_is_positive ss H)).
Qed.

(** ** Check 6: inventory and used-tyre policy *)

Section Inventory.
Import Py.

Lemma dict_get_set (k k' : string) (v : Z) (d : list (string * Z)) :
  dict_get k (dict_set k' v d) = if decide (k = k') then Some v else dict_get k d.
Proof.
  induction d as [|[k0 c] d IH]; simpl.
  - repeat case_decide; congruence.
  - destruct (decide (k0 = k')) as [->|Hne]; simpl.
    + repeat case_decide; congruence.
    + rewrite IH. repeat case_decide; congruence.
Qed.

Lemma dict_get_elem (k : string) (v : Z) (d : list (string * Z)) :
  dict_get k d = Some v → (k, v) ∈ d.
Proof.
  induction d as [|[k0 c] d IH]; simpl; [done|].
  case_decide as E.
  - intros [= ->]. subst. by left.
  - intros H. right. by apply IH.
Qed.

Lemma key_count_cons (k : string) (s : Stint) (ss : list Stint) :
  key_count k (s :: ss) = (if decide (usage_key s = k) then 1 else 0) + key_count k ss.
Proof.
  unfold key_count. rewrite filter_cons.
  case_decide; simpl length; lia.
Qed.

Lemma key_count_nonneg (k : string) (ss : list Stint) : 0 ≤ key_count k ss.
Proof. unfold key_count. lia. Qed.

Lemma key_count_pos (s : Stint) (ss : list Stint) :
  s ∈ ss → 0 < key_count (usage_key s) ss.
Proof.
  induction 1 as [s ss|s s' ss _ IH]; rewrite key_count_cons.
  - rewrite decide_True by done. pose proof (key_count_nonneg (usage_key s) ss). lia.
  - case_decide; lia.
Qed.

(** After the first loop, [usage] maps every key to what it held before
    plus the number of stints filed under it. *)
Lemma usage_loop_get (a : bool) (ss : list Stint) (u : list (string * Z)) (k : string) :
  dict_get k (usage_loop a ss u).1
  = if decide (key_count k ss = 0) then dict_get k u
    else Some (default 0 (dict_get k u) + key_count k ss).
Proof.
  revert u. induction ss as [|s ss IH]; intros u.
  - reflexivity.
  - simpl. set (u' := dict_set _ _ u). specialize (IH u').
    destruct (usage_loop a ss u') as [uf later]. simpl in *.
    rewrite IH, key_count_cons. subst u'. rewrite dict_get_set.
    pose proof (key_count_nonneg k ss).
    destruct (decide (usage_key s = k)) as [->|Hne].
    + rewrite !(decide_True (P := k = k)) by done. simpl.
      rewrite (decide_False (P := 1 + _ = 0)) by lia.
      case_decide as E; [rewrite E|]; f_equal; lia.
    + rewrite !(decide_False (P := k = _)) by done.
      repeat case_decide; try lia; done.
Qed.

(** The messages of the first loop: one per stint on a used set, in stint
    order, when used sets are not allowed. *)
Lemma usage_loop_errors (a : bool) (ss : list Stint) (u : list (string * Z)) :
  (usage_loop a ss u).2
  = flat_map (λ s, if bool_decide (default "new" (set_condition s) = "used") && negb a
                   then [UsedSet (stint_id s)] else []) ss.
Proof.
  revert u. induction ss as [|s ss IH]; intros u; [reflexivity|].
  simpl. set (u' := dict_set _ _ u). specialize (IH u').
  destruct (usage_loop a ss u') as [uf later]. simpl in *. by rewrite IH.
Qed.

Lemma split_nonempty (sep : ascii) (s : string) : split sep s ≠ [].
Proof. destruct s; simpl; [done|]. case_decide; [done|]. by case_match. Qed.

Lemma join_cons_char (sep : string) (c : ascii) (p : string) (ps : list string) :
  join sep (String c p :: ps) = String c (join sep (p :: ps)).
Proof. destruct ps; reflexivity. Qed.

(** Joining the parts of a split gives the string back. *)
Lemma join_split (sep : ascii) (s : string) :
  join (String sep EmptyString) (split sep s) = s.
Proof.
  induction s as [|c s IH]; [reflexivity|].
  simpl split. case_decide as E.
  - subst c. pose proof (split_nonempty sep s) as Hne.
    destruct (split sep s) as [|p ps] eqn:Es; [done|].
    change (join _ (EmptyString :: p :: ps))
      with (String sep (join (String sep EmptyString) (p :: ps))).
    by rewrite IH.
  - pose proof (split_nonempty sep s) as Hne.
    destruct (split sep s) as [|p ps] eqn:Es; [done|].
    by rewrite join_cons_char, IH.
Qed.

Lemma split_two_parts (key p0 p1 : string) :
  split "_" key = [p0; p1] → p0 +:+ "_" +:+ p1 = key.
Proof. intros E. rewrite <- (join_split "_" key), E. reflexivity. Qed.

(** The second loop reaches every key that has exactly two parts. *)
Lemma inventory_step_recorded (a : bool) (m : gmap string Z) (ss : list Stint)
    (s : Stint) (e : Err) :
  s ∈ ss →
  length (split "_" (usage_key s)) = 2%nat →
  e ∈ match m !! usage_key s with
      | Some have =>
          if have <? key_count (usage_key s) ss
          then [InvExceed (key_count (usage_key s) ss) (usage_key s) have] else []
      | None => [InvMissing (usage_key s) (key_count (usage_key s) ss)]
      end →
  e ∈ check_inventory a m ss.
Proof.
  intros Hs Hlen He. unfold check_inventory.
  pose proof (usage_loop_get a ss [] (usage_key s)) as Hget.
  destruct (usage_loop a ss []) as [usage errs]. simpl in Hget.
  pose proof (key_count_pos s ss Hs) as Hpos.
  rewrite decide_False in Hget by lia.
  apply dict_get_elem in Hget. simpl in Hget.
  apply elem_of_app. right. apply elem_of_flat_map.
  eexists. split; [exact Hget|].
  unfold inventory_step. rewrite Z.add_0_l.
  destruct (split "_" (usage_key s)) as [|p0 [|p1 [|p2 ps]]] eqn:Es; try done.
  by rewrite (split_two_parts _ _ _ Es).
Qed.

End Inventory.

Lemma check_inventory_eq (a : bool) (m : gmap string Z) (ss : list Stint) :
  check_inventory a m ss
  = (usage_loop a ss []).2 ++ flat_map (inventory_step m) (usage_loop a ss []).1.
Proof. unfold check_inventory. by destruct (usage_loop a ss []). Qed.

Lemma used_set_recorded (h : Py.SetLayout) (l : Locals) (s : Stint) :
  s ∈ stints l → set_condition s = Some "used" → allow_used l = false →
  UsedSet (stint_id s) ∈ errors_of h l.
Proof.
  intros Hs Hc Ha. apply elem_of_errors_of. do 5 right.
  rewrite check_inventory_eq, usage_loop_errors, Ha.
  apply elem_of_app. left. apply elem_of_flat_map. exists s. split; [done|].
  rewrite Hc. simpl. by left.
Qed.


Lemma two_part_key_checked (h : Py.SetLayout) (l : Locals) (s : Stint) :
  s ∈ stints l →
  length (Py.split "_" (usage_key s)) = 2%nat →
  match inv l !! usage_key s with
  | Some have =>
      have < key_count (usage_key s) (stints l) →
      InvExceed (key_count (usage_key s) (stints l)) (usage_key s) have
        ∈ errors_of h l
  | None =>
      InvMissing (usage_key s) (key_count (usage_key s) (stints l))
        ∈ errors_of h l
  end.
Proof.
  intros Hs Hlen.
  assert (∀ e,
    e ∈ match inv l !! usage_key s with
        | Some have =>
            if have <? key_count (usage_key s) (stints l)
            then [InvExceed (key_count (usage_key s) (stints l)) (usage_key s) have]
            else []
        | None => [InvMissing (usage_key s) (key_count (usage_key s) (stints l))]
        end → e ∈ errors_of h l) as Hrec.
  { intros e He. apply elem_of_errors_of. do 5 right.
    by apply (inventory_step_recorded _ _ _ s). }
  destruct (inv l !! usage_key s) as [have|].
  - intros Hlt. apply Hrec. apply Z.ltb_lt in Hlt. rewrite Hlt. by left.
  - apply Hrec. by left.
Qed.



(** The keys of the documented vocabulary (five compounds, [new] or [used],
    or no [set_condition] at all) have two parts. *)
Lemma vocabulary_keys_have_two_parts (s : Stint) :
  compound s ∈ [Some "Soft"; Some "Medium"; Some "Hard";
               Some "Intermediate"; Some "Wet"] →
  set_condition s ∈ [None; Some "new"; Some "used"] →
  length (Py.split "_" (usage_key s)) = 2%nat.
Proof.
  intros Hc Hs. unfold usage_key.
  elems Hc; elems Hs;
    match goal with Hc : compound s = _, Hs : set_condition s = _ |- _ =>
      rewrite Hc, Hs end; reflexivity.
Qed.

Lemma every_two_part_key_checked (h : Py.SetLayout) (l : Locals) :
  (∀ s, s ∈ stints l → length (Py.split "_" (usage_key s)) = 2%nat) →
  every_used_key_checked h l.
Proof.
  intros H s Hs.
  by apply two_part_key_checked, H.
Qed.

(** ** The defaults of [allow_used_tyre] and [set_condition] *)

Lemma filter_none {A} (P : A → Prop) `{∀ x, Decision (P x)} (l : list A) :
  Forall (λ x, ¬ P x) l → filter P l = [].
Proof.
  induction 1 as [|x xs Hx _ IH]; [reflexivity|].
  by rewrite filter_cons, decide_False, IH.
Qed.

Lemma no_used_set_outside_check_6 (k : nat) (es : list Err) :
  k ≠ 6%nat → Forall (λ e, origin e = k) es →
  filter (λ e, is_used_set e = true) es = [].
Proof.
  intros Hk H. apply filter_none. eapply Forall_impl; [exact H|].
  intros [] Ho; simpl in *; congruence.
Qed.

Lemma no_used_set_in_second_loop (m : gmap string Z) (u : list (string * Z)) :
  filter (λ e, is_used_set e = true) (flat_map (inventory_step m) u) = [].
Proof.
  apply filter_none, Forall_forall. intros e He.
  apply elem_of_flat_map in He as ([k c] & _ & He).
  unfold inventory_step in He. repeat case_match; elems He.
Qed.

Lemma used_set_messages_of_first_loop (a : bool) (ss : list Stint) :
  filter (λ e, is_used_set e = true)
    (flat_map (λ s, if bool_decide (default "new" (set_condition s) = "used") && negb a
                    then [UsedSet (stint_id s)] else []) ss)
  = if a then []
    else map (λ s, UsedSet (stint_id s))
           (filter (λ s, set_condition s = Some "used") ss).
Proof.
  induction ss as [|s ss IH]; [by destruct a|].
  simpl flat_map. rewrite filter_app, IH, filter_cons.
  destruct a; simpl; [by rewrite andb_false_r|]. rewrite andb_true_r.
  destruct (set_condition s) as [c|] eqn:Ec; simpl.
  - case_bool_decide as E; case_decide as E'; simplify_eq; try done.
  - reflexivity.
Qed.

(** The messages about used sets, in the order of the report. *)
Lemma used_set_messages (h : Py.SetLayout) (l : Locals) :
  filter (λ e, is_used_set e = true) (errors_of h l)
  = if allow_used l then []
    else map (λ s, UsedSet (stint_id s))
           (filter (λ s, set_condition s = Some "used") (stints l)).
Proof.
  unfold errors_of. rewrite !filter_app.
  rewrite (no_used_set_outside_check_6 1) by (done || apply origin_min_stints).
  rewrite (no_used_set_outside_check_6 2) by (done || apply origin_diversity).
  rewrite (no_used_set_outside_check_6 3) by (done || apply origin_max_pitstops).
  rewrite (no_used_set_outside_check_6 4) by (done || apply origin_continuity).
  rewrite (no_used_set_outside_check_6 5) by (done || apply origin_summary).
  rewrite check_inventory_eq, filter_app, no_used_set_in_second_loop.
  rewrite usage_loop_errors, used_set_messages_of_first_loop.
  simpl. by rewrite app_nil_r.
Qed.

(** Every used-set error belongs to a stint that says ["used"]. *)
Lemma used_set_origin (h : Py.SetLayout) (l : Locals) (id : option Z) :
  UsedSet id ∈ errors_of h l →
  allow_used l = false
  ∧ ∃ s, s ∈ stints l ∧ set_condition s = Some "used" ∧ stint_id s = id.
Proof.
  intros H.
  assert (UsedSet id ∈ filter (λ e, is_used_set e = true) (errors_of h l)) as Hf
    by (apply list_elem_of_filter; split; [reflexivity|exact H]).
  rewrite used_set_messages in Hf.
  destruct (allow_used l); [by apply elem_of_nil in Hf|]. split; [reflexivity|].
  apply elem_of_map in Hf as (s & [= ->] & Hs).
  apply list_elem_of_filter in Hs as [Hc Hs]. by exists s.
Qed.

(** C10. When the constraints do not mention [allow_used_tyre], used sets are
    not allowed, and every stint whose [set_condition] is ["used"] gets the
    used-set error.  A stint without [set_condition] is filed under
    [{compound}_new], and the used-set errors of a report are exactly those
    of the stints that say ["used"]: a stint that omits the key adds none,
    whatever [allow_used_tyre] is: each used-set error traces back to a
    stint whose [set_condition] is ["used"]. *)
Theorem defaults_of_used_policy (h : Py.SetLayout) (data : Yaml.Doc) (l : Locals) :
  extract data = inr l →
  ((Yaml.assumptions data ≫= Yaml.constraints) ≫= Yaml.allow_used_tyre = None →
     allow_used l = false
     ∧ ∀ s, s ∈ stints l → set_condition s = Some "used" →
         UsedSet (stint_id s) ∈ errors_of h l)
  ∧ (∀ s, set_condition s = None →
       usage_key s = default EmptyString (compound s) +:+ "_new")
  ∧ filter (λ e, is_used_set e = true) (errors_of h l)
    = (if allow_used l then []
       else map (λ s, UsedSet (stint_id s))
              (filter (λ s, set_condition s = Some "used") (stints l)))
  ∧ (∀ id, UsedSet id ∈ errors_of h l →
       allow_used l = false
       ∧ ∃ s, s ∈ stints l ∧ set_condition s = Some "used" ∧ stint_id s = id).
Proof.
  intros Hx. split; [|split; [|split]]; [| | |apply used_set_origin].
  - intros Hnone.
    assert (allow_used l = false) as Ha.
    { unfold extract in Hx. repeat case_match; simplify_eq. simpl.
      by rewrite Hnone. }
    split; [exact Ha|]. intros s Hs Hc. by apply used_set_recorded.
  - intros s Hs. unfold usage_key. by rewrite Hs.
  - apply used_set_messages.
Qed.

Lemma defaults_of_used_policy_witness :
  ((Yaml.assumptions silent_on_used_sets ≫= Yaml.constraints)
     ≫= Yaml.allow_used_tyre = None →
     allow_used used_hard_plan = false
     ∧ ∀ s, s ∈ stints used_hard_plan → set_condition s = Some "used" →
         UsedSet (stint_id s) ∈ errors_of Py.insertion_layout used_hard_plan)
  ∧ (∀ s, set_condition s = None →
       usage_key s = default EmptyString (compound s) +:+ "_new")
  ∧ filter (λ e, is_used_set e = true)
      (errors_of Py.insertion_layout used_hard_plan)
    = (if allow_used used_hard_plan then []
       else map (λ s, UsedSet (stint_id s))
              (filter (λ s, set_condition s = Some "used") (stints used_hard_plan)))
  ∧ (∀ id, UsedSet id ∈ errors_of Py.insertion_layout used_hard_plan →
       allow_used used_hard_plan = false
       ∧ ∃ s, s ∈ stints used_hard_plan
              ∧ set_condition s = Some "used" ∧ stint_id s = id).
Proof.
  apply (defaults_of_used_policy Py.insertion_layout silent_on_used_sets).
  reflexivity.
Defined.

(** ** Check 7 and the end of the function *)

Section Marathon.
Import Py.

(** Check 7 raises exactly when a stint is on a dry compound and the race
    length does not convert to a float; nothing else in the function can. *)
Lemma check_marathon_raises_iff (n : Z) (ss : list Stint) (e : Exn) :
  check_marathon n ss = inl e ↔
    (∃ s, s ∈ ss ∧ on_dry_compound s) ∧ Float64.of_int n = inl e.
Proof.
  unfold on_dry_compound. destruct e.
  induction ss as [|s ss IH]; simpl.
  - split; [done|]. intros [(s & Hs & _) _]. by apply elem_of_nil in Hs.
  - destruct (is_dry (default EmptyString (compound s))) eqn:Hd.
    + unfold over_70_percent.
      destruct (Float64.of_int n) as [[]|f] eqn:Ef.
      * split; [|done]. intros _. split; [|done].
        exists s. split; [by left|done].
      * destruct (check_marathon n ss) as [[]|ws].
        -- by destruct (proj1 IH eq_refl) as [_ ?].
        -- split; [done|by intros [_ ?]].
    + rewrite IH. split; intros [(s' & Hs' & Hd') Hn]; (split; [|done]).
      * exists s'. split; [by right|done].
      * apply elem_of_cons in Hs' as [->|Hs']; [congruence|]. by exists s'.
Qed.

Lemma validate_locals_raises_iff (h : SetLayout) (l : Locals) (e : Exn) :
  validate_locals h l = Raised e ↔
    (∃ s, s ∈ stints l ∧ on_dry_compound s) ∧ Float64.of_int (total_laps l) = inl e.
Proof.
  rewrite <- check_marathon_raises_iff. unfold validate_locals, warnings_of.
  destruct (check_marathon _ _); split; congruence.
Qed.

(** When check 7 completes, the function returns the rendering of the two
    lists. *)
Lemma validate_locals_returns (h : SetLayout) (l : Locals) (ws : list Warn) :
  warnings_of l = inr ws →
  validate_locals h l
  = Returned (render (map Msg.err (errors_of h l)) (map Msg.warn ws)).
Proof. intros E. unfold validate_locals. by rewrite E. Qed.

(** A plan that breaks checks 1, 3 and 6 has all three messages in
    [errors], in that order of appearance among the others. *)
Lemma checks_1_3_6_accumulate (h : SetLayout) (l : Locals) (s : Stint) :
  (Z.of_nat (length (stints l)) < 2 ∧ only_wet (stints l) = false) →
  max_pitstops l < Z.of_nat (actual_stops (stints l)) →
  (s ∈ stints l ∧ set_condition s = Some "used" ∧ allow_used l = false) →
  ∃ es1 es2 es3,
    errors_of h l
    = MinStints :: es1
      ++ MaxStops (actual_stops (stints l)) (max_pitstops l) :: es2
      ++ UsedSet (stint_id s) :: es3.
Proof.
  intros [Hlen Hwet] Hmax (Hs & Hc & Ha).
  unfold errors_of, check_min_stints, check_max_pitstops.
  apply Z.ltb_lt in Hlen, Hmax. rewrite Hlen, Hwet, Hmax. simpl.
  assert (UsedSet (stint_id s) ∈ check_inventory (allow_used l) (inv l) (stints l))
    as Hin.
  { rewrite check_inventory_eq, usage_loop_errors, Ha.
    apply elem_of_app. left. apply elem_of_flat_map. exists s.
    split; [done|]. rewrite Hc. simpl. by left. }
  apply list_elem_of_split in Hin as (i1 & i2 & Ei).
  exists (check_diversity h (min_compounds l) (stints l)),
         (check_continuity (stints l)
          ++ check_summary (uv_pit_laps l) (stints l) ++ i1), i2.
  rewrite Ei. by rewrite <- !app_assoc.
Qed.

End Marathon.

(** C6. The race length [2^1024] does not convert to a float.  On the plan
    that breaks checks 1, 3 and 6, with 57 laps the report lists the three
    errors; with [2^1024] laps the conversion in check 7 raises
    [OverflowError] after checks 1 to 6 have run, outside both [try] blocks,
    and no report is returned. *)
Theorem overflow_in_check_7_escapes (h : Py.SetLayout) :
  domain_validate_strategy h (Yaml.Loaded (lone_used_soft_stint 57))
  = Returned "ERRORS:
- Must schedule ≥ 2 stints for dry/normal conditions; found < 2.
- Planned stops=1 exceed max_pitstops=0.
- allow_used_tyre=false but stint_id=1 uses 'used' set."
  ∧ domain_validate_strategy h (Yaml.Loaded (lone_used_soft_stint (2 ^ 1024)))
    = Raised Py.OverflowError.
Proof.
  split; rewrite run_insertion_layout; vm_compute; reflexivity.
Qed.

(** ** The shape of the report *)

Section Shapes.
Import Py.

Lemma append_empty_r (s : string) : s +:+ EmptyString = s.
Proof.
  induction s as [|c s IH]; [reflexivity|].
  change (String c (s +:+ EmptyString) = String c s). by rewrite IH.
Qed.

Lemma render_shapes (es ws : list string) :
  match es, ws with
  | _ :: _, _ :: _ =>
      render es ws = "ERRORS:
- " +:+ join "
- " es +:+ "

WARNINGS:
- " +:+ join "
- " ws
  | _ :: _, [] =>
      render es ws = "ERRORS:
- " +:+ join "
- " es
  | [], _ :: _ =>
      render es ws = "WARNINGS:
- " +:+ join "
- " ws
  | [], [] => render es ws = "OK"
  end.
Proof.
  destruct es, ws; unfold render; try reflexivity.
  by rewrite append_empty_r.
Qed.

Lemma map_nil_iff {A B} (f : A → B) (l : list A) : map f l = [] ↔ l = [].
Proof. by destruct l. Qed.

Lemma prefix_empty (s : string) : String.prefix EmptyString s = true.
Proof. by destruct s. Qed.

Lemma render_prefixes (es ws : list string) :
  (String.prefix "ERRORS:
- " (render es ws) = true ↔ es ≠ [])
  ∧ (String.prefix "WARNINGS:
- " (render es ws) = true ↔ es = [] ∧ ws ≠ [])
  ∧ (render es ws = "OK" ↔ es = [] ∧ ws = []).
Proof.
  destruct es as [|e es], ws as [|w ws]; simpl;
    repeat split; try done; try (intros []; done);
    intros; (apply prefix_empty || discriminate).
Qed.

End Shapes.

(** C7. For a document that got past both [try] blocks, a returned report
    has one of three shapes, decided by the two lists: the ERRORS section
    with every error, followed by the WARNINGS section exactly when there
    is a warning; the WARNINGS section alone; or the text OK.  The three
    are told apart by how the text begins. *)
Theorem report_has_one_of_three_shapes (h : Py.SetLayout) (data : Yaml.Doc)
    (l : Locals) (text : string) :
  extract data = inr l →
  domain_validate_strategy h (Yaml.Loaded data) = Returned text →
  ∃ warnings,
    warnings_of l = inr warnings
    ∧ match map Msg.err (errors_of h l), map Msg.warn warnings with
      | (_ :: _) as es, (_ :: _) as ws =>
          text = "ERRORS:
- " +:+ Py.join "
- " es +:+ "

WARNINGS:
- " +:+ Py.join "
- " ws
      | (_ :: _) as es, [] =>
          text = "ERRORS:
- " +:+ Py.join "
- " es
      | [], (_ :: _) as ws =>
          text = "WARNINGS:
- " +:+ Py.join "
- " ws
      | [], [] => text = "OK"
      end
    ∧ (String.prefix "ERRORS:
- " text = true ↔ errors_of h l ≠ [])
    ∧ (String.prefix "WARNINGS:
- " text = true ↔ errors_of h l = [] ∧ warnings ≠ [])
    ∧ (text = "OK" ↔ errors_of h l = [] ∧ warnings = []).
Proof.
  intros Hx Hrun. simpl in Hrun. rewrite Hx in Hrun.
  unfold validate_locals in Hrun.
  destruct (warnings_of l) as [e|warnings]; [discriminate Hrun|].
  injection Hrun as <-. exists warnings. split; [reflexivity|].
  pose proof (render_shapes (map Msg.err (errors_of h l)) (map Msg.warn warnings)) as Hs.
  pose proof (render_prefixes (map Msg.err (errors_of h l)) (map Msg.warn warnings))
    as (Hp1 & Hp2 & Hp3).
  split; [|split; [|split]].
  - destruct (map Msg.err (errors_of h l)), (map Msg.warn warnings); exact Hs.
  - rewrite Hp1, map_nil_iff. reflexivity.
  - rewrite Hp2, !map_nil_iff. reflexivity.
  - rewrite Hp3, !map_nil_iff. reflexivity.
Qed.

Lemma report_has_one_of_three_shapes_witness :
  ∃ warnings,
    warnings_of scenario_E = inr warnings
    ∧ match map Msg.err (errors_of Py.insertion_layout scenario_E),
            map Msg.warn warnings with
      | (_ :: _) as es, (_ :: _) as ws =>
          "WARNINGS:
- Dry stint Hard length 45 laps > 70% of race; likely unrealistic."
          = "ERRORS:
- " +:+ Py.join "
- " es +:+ "

WARNINGS:
- " +:+ Py.join "
- " ws
      | (_ :: _) as es, [] =>
          "WARNINGS:
- Dry stint Hard length 45 laps > 70% of race; likely unrealistic."
          = "ERRORS:
- " +:+ Py.join "
- " es
      | [], (_ :: _) as ws =>
          "WARNINGS:
- Dry stint Hard length 45 laps > 70% of race; likely unrealistic."
          = "WARNINGS:
- " +:+ Py.join "
- " ws
      | [], [] =>
          "WARNINGS:
- Dry stint Hard length 45 laps > 70% of race; likely unrealistic." = "OK"
      end
    ∧ (String.prefix "ERRORS:
- " "WARNINGS:
- Dry stint Hard length 45 laps > 70% of race; likely unrealistic." = true
       ↔ errors_of Py.insertion_layout scenario_E ≠ [])
    ∧ (String.prefix "WARNINGS:
- " "WARNINGS:
- Dry stint Hard length 45 laps > 70% of race; likely unrealistic." = true
       ↔ errors_of Py.insertion_layout scenario_E = [] ∧ warnings ≠ [])
    ∧ ("WARNINGS:
- Dry stint Hard length 45 laps > 70% of race; likely unrealistic." = "OK"
       ↔ errors_of Py.insertion_layout scenario_E = [] ∧ warnings = []).
Proof.
  apply (report_has_one_of_three_shapes Py.insertion_layout scenario_E_document).
  - reflexivity.
  - vm_compute. reflexivity.
Defined.

(** ** Check 7 only warns *)

Section OnlyWarns.
Import Py.

Lemma check_marathon_completes (n : Z) (f : spec_float) (ss : list Stint) :
  Float64.of_int n = inr f →
  ∃ ws, check_marathon n ss = inr ws
    ∧ ∀ s, s ∈ ss → on_dry_compound s →
        Float64.int_gt (int_or0 (target_len_laps s))
          (Float64.mul Float64.lit_0_7 f) = true →
        Marathon (default EmptyString (compound s)) (int_or0 (target_len_laps s)) ∈ ws.
Proof.
  intros Hf. unfold on_dry_compound.
  induction ss as [|s ss (ws & Hws & IH)]; cbn [check_marathon].
  - exists []. split; [done|]. intros s Hs. by apply elem_of_nil in Hs.
  - destruct (is_dry (default EmptyString (compound s))) eqn:Hd.
    + unfold over_70_percent. rewrite Hf, Hws. eexists. split; [reflexivity|].
      intros s' Hs' Hd' Hgt. apply elem_of_app.
      apply elem_of_cons in Hs' as [->|Hs'].
      * left. rewrite Hgt. by left.
      * right. by apply IH.
    + exists ws. split; [done|]. intros s' Hs' Hd' Hgt.
      apply elem_of_cons in Hs' as [->|Hs']; [congruence|]. by apply IH.
Qed.

Lemma over_70_percent_true (tlen n : Z) :
  over_70_percent tlen n = inr true →
  ∃ f, Float64.of_int n = inr f
       ∧ Float64.int_gt tlen (Float64.mul Float64.lit_0_7 f) = true.
Proof.
  unfold over_70_percent. destruct (Float64.of_int n) as [e|f]; [done|].
  intros [= H]. by exists f.
Qed.

Lemma dry_compound_is_tested (s : Stint) :
  compound s ∈ [Some "Soft"; Some "Medium"; Some "Hard"] → on_dry_compound s.
Proof.
  intros H. unfold on_dry_compound.
  elems H; match goal with H : compound s = _ |- _ => rewrite H end; reflexivity.
Qed.

(** Checks 1 to 6 never read a target length or the race length. *)
Lemma errors_ignore_lengths (h : SetLayout) (len : Stint → option Z) (n : Z) (l : Locals) :
  errors_of h (set_lengths len n l) = errors_of h l.
Proof.
  unfold errors_of, set_lengths; simpl.
  set (g := λ s, {| stint_id := stint_id s; start_lap := start_lap s;
                    planned_inlap := planned_inlap s; compound := compound s;
                    set_condition := set_condition s;
                    target_len_laps := len s |}).
  generalize (stints l). intros ss.
  assert (compounds (map g ss) = compounds ss) as Hc
    by (unfold compounds; rewrite map_map; reflexivity).
  assert (planned_inlaps (map g ss) = planned_inlaps ss) as Hp
    by (unfold planned_inlaps; rewrite map_map; reflexivity).
  assert (length (map g ss) = length ss) as Hl by apply length_map.
  f_equal; [|f_equal; [|f_equal; [|f_equal; [|f_equal]]]].
  - unfold check_min_stints, only_wet. by rewrite Hc, Hl.
  - unfold check_diversity, dry_compounds_used. by rewrite Hc.
  - unfold check_max_pitstops, actual_stops. by rewrite Hp.
  - unfold check_continuity. rewrite Hl. apply flat_map_ext. intros i.
    unfold continuity_step. rewrite Hl.
    change (map g ss) with (g <$> ss). rewrite !list_lookup_fmap.
    destruct (ss !! (i - 1)%nat), (ss !! i); reflexivity.
  - unfold check_summary, expected_uv. by rewrite Hp.
  - rewrite !check_inventory_eq.
    assert (∀ a u, usage_loop a (map g ss) u = usage_loop a ss u) as ->; [|done].
    clear Hc Hp Hl.
    intros a. induction ss as [|s ss IH]; intros u; [reflexivity|].
    cbn [map usage_loop]. change (usage_key (g s)) with (usage_key s).
    rewrite IH. reflexivity.
Qed.

Lemma int_gt_mono (n n' : Z) (f : spec_float) :
  n ≤ n' → Float64.int_gt n f = true → Float64.int_gt n' f = true.
Proof.
  intros Hn. destruct f as [s|s| |s m e]; simpl; try done.
  - rewrite !Z.ltb_lt. lia.
  - destruct (0 <=? e); rewrite !Z.ltb_lt; [lia|].
    intros H. eapply Z.lt_le_trans; [exact H|].
    apply Z.mul_le_mono_nonneg_r; [|done]. apply Z.pow_nonneg. lia.
Qed.

End OnlyWarns.

(** ** The range of the float conversion *)

Section FloatRange.

Lemma digits2_pos_size (m : positive) : digits2_pos m = Pos.size m.
Proof. induction m; simpl; congruence. Qed.

Lemma digits2_pos_iter_xO (m k : positive) :
  digits2_pos (Pos.iter xO m k) = (digits2_pos m + k)%positive.
Proof.
  revert m. induction k using Pos.peano_ind; intros m.
  - simpl. lia.
  - rewrite Pos.iter_succ. simpl. rewrite IHk. lia.
Qed.

Lemma digits2_pos_le_53 (m : positive) :
  Z.pos m < 2 ^ 53 → Z.pos (digits2_pos m) ≤ 53.
Proof.
  intros H. rewrite digits2_pos_size.
  pose proof (Pos.size_le m) as Hs.
  destruct (Z.le_gt_cases (Z.pos (Pos.size m)) 53) as [|Hgt]; [done|exfalso].
  assert (2 ^ 54 ≤ 2 ^ Z.pos (Pos.size m)) by (apply Z.pow_le_mono_r; lia).
  assert (Z.pos (2 ^ Pos.size m) ≤ Z.pos m~0) as Hs' by exact Hs.
  rewrite Pos2Z.inj_pow in Hs'. lia.
Qed.

Lemma binary_round_aux_exact (s : bool) (m : positive) (e : Z) :
  Z.pos (digits2_pos m) = 53 → -1074 ≤ e ≤ 971 →
  binary_round_aux Float64.prec Float64.emax s (Z.pos m) e loc_Exact
  = S754_finite s m e.
Proof.
  intros Hd He.
  assert (shr_fexp Float64.prec Float64.emax (Z.pos m) e loc_Exact
          = ({| shr_m := Z.pos m; shr_r := false; shr_s := false |}, e)) as Hshr.
  { unfold shr_fexp, fexp, emin, Float64.prec, Float64.emax. simpl Zdigits2.
    rewrite Hd.
    replace (Z.max (53 + e - 53) (3 - 1024 - 53) - e) with 0 by lia.
    reflexivity. }
  unfold binary_round_aux. rewrite Hshr. simpl. rewrite Hshr. simpl.
  unfold Float64.emax, Float64.prec.
  destruct (Z.leb_spec e (1024 - 53)); [reflexivity|lia].
Qed.

Lemma binary_round_small (s : bool) (m : positive) :
  Z.pos m < 2 ^ 53 →
  ∃ m' e, binary_round Float64.prec Float64.emax s m 0 = S754_finite s m' e.
Proof.
  intros Hm. pose proof (digits2_pos_le_53 m Hm) as Hd.
  unfold binary_round, shl_align, fexp, emin, Float64.prec, Float64.emax.
  replace (Z.max (Z.pos (digits2_pos m) + 0 - 53) (3 - 1024 - 53) - 0)
    with (Z.pos (digits2_pos m) - 53) by lia.
  destruct (Z.pos (digits2_pos m) - 53) as [|k|k] eqn:Ek; try lia.
  - eexists _, _. apply binary_round_aux_exact; lia.
  - eexists _, _. apply binary_round_aux_exact.
    + rewrite digits2_pos_iter_xO. lia.
    + lia.
Qed.

(** Integers below [2^53] in magnitude convert to a float (exactly). *)
Lemma of_int_small (n : Z) :
  Z.abs n < 2 ^ 53 → ∃ f, Float64.of_int n = inr f.
Proof.
  intros Hn. unfold Float64.of_int, binary_normalize.
  destruct n as [|m|m].
  - by eexists.
  - destruct (binary_round_small false m) as (m' & e & ->); [lia|]. by eexists.
  - destruct (binary_round_small true m) as (m' & e & ->); [lia|]. by eexists.
Qed.

End FloatRange.


(** Below [2^53] laps the validator returns: a report for a document that
    got past both [try] blocks, a parse message otherwise. *)
Lemma validate_locals_total (h : Py.SetLayout) (l : Locals) :
  Z.abs (total_laps l) < 2 ^ 53 →
  ∃ ws, warnings_of l = inr ws
        ∧ validate_locals h l
          = Returned (render (map Msg.err (errors_of h l)) (map Msg.warn ws)).
Proof.
  intros Hn. destruct (of_int_small _ Hn) as (f & Hf).
  destruct (check_marathon_completes (total_laps l) f (stints l) Hf) as (ws & Hws & _).
  exists ws. split; [exact Hws|]. by apply validate_locals_returns.
Qed.

Lemma domain_validate_strategy_total (h : Py.SetLayout) (y : Yaml.Load) :
  (∀ data l, y = Yaml.Loaded data → extract data = inr l →
             Z.abs (total_laps l) < 2 ^ 53) →
  ∃ text, domain_validate_strategy h y = Returned text.
Proof.
  intros Hn. destruct y as [msg|data]; simpl; [by eexists|].
  destruct (extract data) as [msg|l] eqn:Hx; [by eexists|].
  destruct (validate_locals_total h l (Hn data l eq_refl Hx)) as (ws & _ & ->).
  by eexists.
Qed.



(** Scenario E is reported with the warning alone. *)
Lemma scenario_E_report (h : Py.SetLayout) :
  domain_validate_strategy h (Yaml.Loaded scenario_E_document)
  = Returned "WARNINGS:
- Dry stint Hard length 45 laps > 70% of race; likely unrealistic.".
Proof. rewrite run_insertion_layout. vm_compute. reflexivity. Qed.

(** ** The threshold in decimal terms

    The test is made on floats: [0.7] is the double below seven tenths and
    the product is rounded.  For every race length up to 5000 laps a length
    strictly above seven tenths passes it. *)

Lemma threshold_agrees_upto_5000 :
  forallb threshold_agrees (seqZ 0 5001) = true.
Proof. vm_compute. reflexivity. Qed.

Lemma above_seven_tenths_is_warned (tlen race_laps : Z) :
  0 ≤ race_laps ≤ 5000 → 7 * race_laps < 10 * tlen →
  over_70_percent tlen race_laps = inr true.
Proof.
  intros Hr Hlt.
  assert (threshold_agrees race_laps = true) as Ha.
  { apply (proj1 (forallb_forall _ _) threshold_agrees_upto_5000).
    apply list_elem_of_In, elem_of_seqZ. lia. }
  unfold threshold_agrees in Ha.
  destruct (over_70_percent (7 * race_laps / 10 + 1) race_laps)
    as [e|[|]] eqn:Ho; try discriminate Ha.
  apply over_70_percent_true in Ho as (f & Hf & Hgt).
  unfold over_70_percent. rewrite Hf. f_equal.
  apply (int_gt_mono (7 * race_laps / 10 + 1)); [|exact Hgt].
  assert (7 * race_laps / 10 < tlen); [|lia].
  apply Z.div_lt_upper_bound; lia.
Qed.

(** The converse fails: 63 laps are exactly seven tenths of 90, and the
    product [0.7 * 90] is the double just below 63. *)
Lemma seven_tenths_of_90_is_warned :
  over_70_percent 63 90 = inr true ∧ 7 * 90 = 10 * 63.
Proof. split; [vm_compute|]; reflexivity. Qed.

(** * Further properties of the validator *)

(** ** Check 1: the minimum number of stints *)

Section MinStintsRule.
Import Py.

Lemma only_wet_iff (ss : list Stint) :
  only_wet ss = true ↔
    ss ≠ [] ∧ ∀ s, s ∈ ss → stripped_compound s ∈ wet_set.
Proof.
  unfold only_wet, compounds. rewrite andb_true_iff, forallb_forall, Z.ltb_lt.
  rewrite length_map. split.
  - intros [Hall Hlen]. split; [by destruct ss|].
    intros s Hs.
    assert (is_wet (stripped_compound s) = true) as Hc.
    { apply Hall, list_elem_of_In, elem_of_map. by exists s. }
    unfold is_wet in Hc. by apply bool_decide_eq_true in Hc.
  - intros [Hne Hall]. split; [|destruct ss; simpl; [done|lia]].
    intros c Hc. apply list_elem_of_In, elem_of_map in Hc as (s & -> & Hs).
    unfold is_wet. apply bool_decide_eq_true. by apply Hall.
Qed.

End MinStintsRule.

Lemma min_stints_recorded_iff (h : Py.SetLayout) (l : Locals) :
  MinStints ∈ errors_of h l ↔
    stints l = []
    ∨ ∃ s, stints l = [s] ∧ stripped_compound s ∉ ["Wet"; "Intermediate"].
Proof.
  split.
  - intros H. by_origin H. unfold check_min_stints in H.
    destruct (only_wet (stints l)) eqn:Hw;
      [rewrite andb_false_r in H; by apply elem_of_nil in H|].
    destruct (stints l) as [|s [|s' ss]] eqn:Hs; [by left| |].
    2: { assert ((Z.of_nat (length (s :: s' :: ss)) <? 2) = false) as E
           by (apply Z.ltb_ge; simpl length; lia).
         rewrite E in H. by apply elem_of_nil in H. }
    right. exists s. split; [done|]. intros Hin.
    assert (only_wet [s] = true) as Hw'; [|congruence].
    apply only_wet_iff. split; [done|]. intros s0 Hs0.
    apply list_elem_of_singleton in Hs0 as ->. exact Hin.
  - intros H. apply elem_of_errors_of. left. unfold check_min_stints.
    destruct H as [->|(s & -> & Hs)]; [by left|].
    assert (only_wet [s] = false) as ->; [|by left].
    apply not_true_is_false. intros Hw. apply only_wet_iff in Hw as [_ Hw].
    apply Hs, Hw. by left.
Qed.


(** ** Check 2: dry-compound diversity *)

Section Diversity.
Import Py.

Lemma dry_compounds_used_length (h : SetLayout) (ss : list Stint) :
  length (dry_compounds_used h ss) = distinct_dry ss.
Proof.
  unfold dry_compounds_used, distinct_dry, set_of.
  apply Permutation_length, arrange_perm.
Qed.

Lemma distinct_dry_le_3 (ss : list Stint) : (distinct_dry ss ≤ 3)%nat.
Proof.
  unfold distinct_dry.
  change 3%nat with (length dry_set).
  apply submseteq_length, NoDup_submseteq; [apply NoDup_remove_dups|].
  intros c Hc. apply elem_of_remove_dups, list_elem_of_filter in Hc as [Hd _].
  unfold is_dry in Hd. by apply bool_decide_eq_true in Hd.
Qed.

Lemma distinct_dry_pos_iff (ss : list Stint) :
  (0 < distinct_dry ss)%nat ↔ ∃ s, s ∈ ss ∧ stripped_compound s ∈ dry_set.
Proof.
  unfold distinct_dry. split.
  - intros Hpos.
    destruct (remove_dups (filter (λ c, is_dry c = true) (compounds ss)))
      as [|c cs] eqn:E; [simpl in Hpos; lia|].
    assert (c ∈ remove_dups (filter (λ c, is_dry c = true) (compounds ss))) as Hc
      by (rewrite E; left).
    apply elem_of_remove_dups, list_elem_of_filter in Hc as [Hd Hc].
    apply elem_of_map in Hc as (s & -> & Hs). exists s. split; [done|].
    unfold is_dry in Hd. by apply bool_decide_eq_true in Hd.
  - intros (s & Hs & Hd).
    assert (stripped_compound s
              ∈ remove_dups (filter (λ c, is_dry c = true) (compounds ss))) as Hin.
    { apply elem_of_remove_dups, list_elem_of_filter. split.
      - unfold is_dry. by apply bool_decide_eq_true.
      - apply elem_of_map. by exists s. }
    destruct (remove_dups _); [by apply elem_of_nil in Hin|simpl; lia].
Qed.

End Diversity.

Lemma diversity_recorded_iff (h : Py.SetLayout) (l : Locals) (n : nat) (m : Z) :
  (Diversity n m ∈ errors_of h l ↔
     n = distinct_dry (stints l) ∧ m = min_compounds l
     ∧ (0 < n)%nat ∧ Z.of_nat n < m)
  ∧ (distinct_dry (stints l) ≤ 3)%nat
  ∧ ((0 < distinct_dry (stints l))%nat ↔
       ∃ s, s ∈ stints l ∧ stripped_compound s ∈ ["Soft"; "Medium"; "Hard"]).
Proof.
  split; [|split; [apply distinct_dry_le_3|apply distinct_dry_pos_iff]].
  assert (bool_decide (dry_compounds_used h (stints l) = [])
          = bool_decide (distinct_dry (stints l) = 0%nat)) as Hnil.
  { apply bool_decide_ext. rewrite <- (dry_compounds_used_length h).
    by destruct (dry_compounds_used h (stints l)). }
  split.
  - intros H. by_origin H. unfold check_diversity in H.
    rewrite Hnil, dry_compounds_used_length in H.
    case_bool_decide as Hz; simpl in H; [by apply elem_of_nil in H|].
    destruct (Z.ltb_spec 0 (min_compounds l)); simpl in H;
      [|by apply elem_of_nil in H].
    destruct (Z.ltb_spec (Z.of_nat (distinct_dry (stints l))) (min_compounds l));
      [|by apply elem_of_nil in H].
    apply list_elem_of_singleton in H. injection H as -> ->.
    repeat split; (done || lia).
  - intros (-> & -> & Hpos & Hlt). apply elem_of_errors_of. right. left.
    unfold check_diversity. rewrite Hnil, dry_compounds_used_length.
    rewrite bool_decide_eq_false_2 by lia. simpl.
    assert ((0 <? min_compounds l) = true) as -> by (apply Z.ltb_lt; lia).
    apply Z.ltb_lt in Hlt. rewrite Hlt. by left.
Qed.


(** ** Check 4: what a continuity message stands for *)

Lemma continuity_recorded_iff (h : Py.SetLayout) (l : Locals)
    (p c : option Z) (expected got : Z) :
  Continuity p c expected got ∈ errors_of h l ↔
    ∃ i prev cur,
      stints l !! i = Some prev ∧ stints l !! S i = Some cur
      ∧ Py.int_or0 (planned_inlap prev) ≠ 0
      ∧ Py.int_or0 (start_lap cur) ≠ Py.int_or0 (planned_inlap prev) + 1
      ∧ p = stint_id prev ∧ c = stint_id cur
      ∧ expected = Py.int_or0 (planned_inlap prev) + 1
      ∧ got = Py.int_or0 (start_lap cur).
Proof.
  split.
  - intros H. by_origin H.
    apply elem_of_flat_map in H as (i & Hi & He).
    apply elem_of_seq in Hi. unfold continuity_step in He.
    destruct (stints l !! (i - 1)%nat) as [prev|] eqn:Hp; [|by apply elem_of_nil in He].
    destruct (stints l !! i) as [cur|] eqn:Hc; [|by apply elem_of_nil in He].
    apply elem_of_app in He as [He|He]; [case_match; elems He|].
    destruct (Py.int_or0 (planned_inlap prev) =? 0) eqn:Hz; simpl in He;
      [by apply elem_of_nil in He|].
    destruct (Py.int_or0 (start_lap cur) =? Py.int_or0 (planned_inlap prev) + 1)
      eqn:Hs; simpl in He; [by apply elem_of_nil in He|].
    apply list_elem_of_singleton in He. injection He as -> -> -> ->.
    exists (i - 1)%nat, prev, cur. replace (S (i - 1)) with i by lia.
    apply Z.eqb_neq in Hz, Hs. repeat split; done.
  - intros (i & prev & cur & Hp & Hc & Hz & Hs & -> & -> & -> & ->).
    apply continuity_errors_reported. by apply (continuity_error_recorded _ i).
Qed.

(** A continuity message is in the report exactly for an adjacent pair whose
    earlier stint ends in a stop (a non-zero [planned_inlap]) and whose later
    stint does not start on the next lap; it carries the two ids, the lap
    that was expected and the lap that was found. *)
Theorem continuity_error_iff (h : Py.SetLayout) (l : Locals)
    (p c : option Z) (expected got : Z) :
  Continuity p c expected got ∈ errors_of h l ↔
    ∃ i prev cur,
      stints l !! i = Some prev ∧ stints l !! S i = Some cur
      ∧ Py.int_or0 (planned_inlap prev) ≠ 0
      ∧ Py.int_or0 (start_lap cur) ≠ Py.int_or0 (planned_inlap prev) + 1
      ∧ p = stint_id prev ∧ c = stint_id cur
      ∧ expected = Py.int_or0 (planned_inlap prev) + 1
      ∧ got = Py.int_or0 (start_lap cur).
Proof. apply continuity_recorded_iff. Qed.

(** ** Check 6: what an inventory message stands for *)

Section InventoryMessages.
Import Py.

Lemma dict_set_keys (k : string) (v : Z) (d : list (string * Z)) :
  ∀ k', k' ∈ (dict_set k v d).*1 ↔ k' = k ∨ k' ∈ d.*1.
Proof.
  induction d as [|[k0 c] d IH]; intros k'; simpl.
  - rewrite list_elem_of_singleton, elem_of_nil. tauto.
  - case_decide as E; simpl; rewrite !elem_of_cons.
    + subst. tauto.
    + rewrite IH. tauto.
Qed.

Lemma dict_set_NoDup (k : string) (v : Z) (d : list (string * Z)) :
  NoDup d.*1 → NoDup (dict_set k v d).*1.
Proof.
  induction d as [|[k0 c] d IH]; simpl; intros Hnd.
  - apply NoDup_singleton.
  - apply NoDup_cons in Hnd as [Hk0 Hnd]. case_decide as E; simpl.
    + by apply NoDup_cons.
    + apply NoDup_cons. split; [|by apply IH].
      rewrite dict_set_keys. intros [->|Hin]; done.
Qed.

Lemma usage_loop_NoDup (a : bool) (ss : list Stint) (u : list (string * Z)) :
  NoDup u.*1 → NoDup (usage_loop a ss u).1.*1.
Proof.
  revert u. induction ss as [|s ss IH]; intros u Hnd; [done|].
  simpl. set (u' := dict_set _ _ u).
  specialize (IH u' (dict_set_NoDup _ _ _ Hnd)).
  by destruct (usage_loop a ss u').
Qed.

Lemma dict_elem_get (k : string) (c : Z) (d : list (string * Z)) :
  NoDup d.*1 → (k, c) ∈ d → dict_get k d = Some c.
Proof.
  induction d as [|[k0 c0] d IH]; simpl; intros Hnd Hin;
    [by apply elem_of_nil in Hin|].
  apply NoDup_cons in Hnd as [Hk0 Hnd].
  apply elem_of_cons in Hin as [[= -> ->]|Hin].
  - by rewrite decide_True.
  - rewrite decide_False; [by apply IH|].
    intros ->. apply Hk0. apply list_elem_of_fmap. by exists (k, c).
Qed.

(** Every item of [usage] is a key that some stint uses, with the number of
    stints that use it, and no key occurs twice. *)
Lemma usage_items (a : bool) (ss : list Stint) (k : string) (c : Z) :
  (k, c) ∈ (usage_loop a ss []).1 ↔ c = key_count k ss ∧ 0 < c.
Proof.
  pose proof (usage_loop_get a ss [] k) as Hget. simpl in Hget.
  pose proof (key_count_nonneg k ss) as Hnn.
  split.
  - intros Hin.
    apply dict_elem_get in Hin; [|apply usage_loop_NoDup, NoDup_nil_2].
    rewrite Hin in Hget. case_decide; [done|].
    injection Hget as ->. lia.
  - intros [-> Hpos]. apply dict_get_elem.
    rewrite Hget, decide_False by lia. f_equal; lia.
Qed.

Lemma inventory_step_elem (m : gmap string Z) (k : string) (c : Z) (e : Err) :
  e ∈ inventory_step m (k, c) ↔
    length (split "_" k) = 2%nat
    ∧ match m !! k with
      | Some have => have < c ∧ e = InvExceed c k have
      | None => e = InvMissing k c
      end.
Proof.
  unfold inventory_step.
  destruct (split "_" k) as [|p0 [|p1 [|p2 ps]]] eqn:Es; simpl;
    try (rewrite elem_of_nil; split; [done|intros [? _]; done]).
  rewrite (split_two_parts _ _ _ Es).
  destruct (m !! k) as [have|].
  - destruct (Z.ltb_spec have c).
    + rewrite list_elem_of_singleton. tauto.
    + rewrite elem_of_nil. split; [done|]. intros [_ [? _]]. lia.
  - rewrite list_elem_of_singleton. tauto.
Qed.

Lemma inventory_message_iff (a : bool) (m : gmap string Z) (ss : list Stint) (e : Err) :
  is_used_set e = false →
  e ∈ check_inventory a m ss ↔
    ∃ k, 0 < key_count k ss ∧ length (split "_" k) = 2%nat
         ∧ match m !! k with
           | Some have => have < key_count k ss ∧ e = InvExceed (key_count k ss) k have
           | None => e = InvMissing k (key_count k ss)
           end.
Proof.
  intros Hu. rewrite check_inventory_eq, elem_of_app, elem_of_flat_map. split.
  - intros [H|([k c] & Hin & He)].
    + rewrite usage_loop_errors in H.
      apply elem_of_flat_map in H as (s & _ & H).
      case_match; elems H.
    + apply usage_items in Hin as [-> Hpos].
      apply inventory_step_elem in He as [Hlen He]. by exists k.
  - intros (k & Hpos & Hlen & He). right. exists (k, key_count k ss). split.
    + by apply usage_items.
    + by apply inventory_step_elem.
Qed.

End InventoryMessages.

Lemma inventory_recorded_iff (h : Py.SetLayout) (l : Locals) (k : string) (c have : Z) :
  (InvExceed c k have ∈ errors_of h l ↔
     c = key_count k (stints l) ∧ 0 < c
     ∧ length (Py.split "_" k) = 2%nat
     ∧ inv l !! k = Some have ∧ have < c)
  ∧ (InvMissing k c ∈ errors_of h l ↔
       c = key_count k (stints l) ∧ 0 < c
       ∧ length (Py.split "_" k) = 2%nat
       ∧ inv l !! k = None).
Proof.
  split.
  - split.
    + intros H. by_origin H.
      apply inventory_message_iff in H as (k' & Hpos & Hlen & H); [|done].
      destruct (inv l !! k') as [have'|] eqn:Hk; [|done].
      destruct H as [Hlt [= -> -> ->]]. by rewrite Hk.
    + intros (-> & Hpos & Hlen & Hk & Hlt). apply elem_of_errors_of. do 5 right.
      apply inventory_message_iff; [done|]. exists k. by rewrite Hk.
  - split.
    + intros H. by_origin H.
      apply inventory_message_iff in H as (k' & Hpos & Hlen & H); [|done].
      destruct (inv l !! k') as [have'|] eqn:Hk; [by destruct H|].
      injection H as -> ->. by rewrite Hk.
    + intros (-> & Hpos & Hlen & Hk). apply elem_of_errors_of. do 5 right.
      apply inventory_message_iff; [done|]. exists k. by rewrite Hk.
Qed.

(** An inventory message is in the report exactly for a key of two parts
    that at least one stint uses: the shortage message when the inventory
    lists the key with fewer sets than the stints that use it, the missing
    message when the inventory does not list it.  The count in the message is
    the number of stints that use the key.  So a key with enough sets in
    stock is never reported. *)
Theorem inventory_error_iff (h : Py.SetLayout) (l : Locals) (k : string) (c have : Z) :
  (InvExceed c k have ∈ errors_of h l ↔
     c = key_count k (stints l) ∧ 0 < c
     ∧ length (Py.split "_" k) = 2%nat
     ∧ inv l !! k = Some have ∧ have < c)
  ∧ (InvMissing k c ∈ errors_of h l ↔
       c = key_count k (stints l) ∧ 0 < c
       ∧ length (Py.split "_" k) = 2%nat
       ∧ inv l !! k = None).
Proof. apply inventory_recorded_iff. Qed.

(** ** The order of the messages *)

Lemma origins_sorted_app (k : nat) (es1 es2 : list Err) :
  Forall (λ e, origin e = k) es1 →
  Forall (λ e, (k ≤ origin e)%nat) es2 →
  StronglySorted le (map origin es2) →
  StronglySorted le (map origin (es1 ++ es2))
  ∧ Forall (λ e, (k ≤ origin e)%nat) (es1 ++ es2).
Proof.
  intros H1 H2 Hs.
  assert (Forall (λ e, (k ≤ origin e)%nat) (es1 ++ es2)) as Hall.
  { apply Forall_app. split; [|done].
    eapply Forall_impl; [exact H1|]. intros e ->. done. }
  split; [|exact Hall]. clear Hall.
  induction H1 as [|e es1 He H1 IH]; simpl; [done|].
  constructor; [exact IH|].
  apply Forall_forall. intros x Hx.
  apply elem_of_map in Hx as (e' & -> & He').
  rewrite He. apply elem_of_app in He' as [He'|He'].
  - by rewrite (proj1 (Forall_forall _ _) H1 e' He').
  - by apply (proj1 (Forall_forall _ _) H2).
Qed.

Lemma origin_lower (k : nat) (es : list Err) :
  Forall (λ e, (S k ≤ origin e)%nat) es → Forall (λ e, (k ≤ origin e)%nat) es.
Proof. intros H. eapply Forall_impl; [exact H|]. intros e He. simpl in He. lia. Qed.

(** The messages of the ERRORS section come in the order of the checks:
    along the list the number of the originating check never decreases. *)
Theorem errors_follow_check_order (h : Py.SetLayout) (l : Locals) :
  StronglySorted le (map origin (errors_of h l)).
Proof.
  unfold errors_of.
  assert (∀ k es, Forall (λ e, origin e = k) es →
            StronglySorted le (map origin es)
            ∧ Forall (λ e, (k ≤ origin e)%nat) es) as Hlast.
  { intros k es H.
    destruct (origins_sorted_app k es [] H) as [Hs Hf]; [done|constructor|].
    by rewrite app_nil_r in Hs, Hf. }
  destruct (Hlast 6%nat _ (origin_inventory (allow_used l) (inv l) (stints l)))
    as [S6 F6].
  destruct (origins_sorted_app 5 _ _
              (origin_summary (uv_pit_laps l) (stints l))
              (origin_lower _ _ F6) S6) as [S5 F5].
  destruct (origins_sorted_app 4 _ _ (origin_continuity (stints l))
              (origin_lower _ _ F5) S5) as [S4 F4].
  destruct (origins_sorted_app 3 _ _
              (origin_max_pitstops (max_pitstops l) (stints l))
              (origin_lower _ _ F4) S4) as [S3 F3].
  destruct (origins_sorted_app 2 _ _
              (origin_diversity h (min_compounds l) (stints l))
              (origin_lower _ _ F3) S3) as [S2 F2].
  destruct (origins_sorted_app 1 _ _ (origin_min_stints (stints l))
              (origin_lower _ _ F2) S2) as [S1 _].
  exact S1.
Qed.

(** ** Check 7: what a warning stands for *)

Lemma check_marathon_elem (n : Z) (ss : list Stint) (ws : list Warn)
    (c : string) (t : Z) :
  check_marathon n ss = inr ws →
  Marathon c t ∈ ws ↔
    ∃ s, s ∈ ss ∧ default EmptyString (compound s) = c ∧ c ∈ dry_set
         ∧ Py.int_or0 (target_len_laps s) = t
         ∧ over_70_percent t n = inr true.
Proof.
  revert ws. induction ss as [|s ss IH]; intros ws; cbn [check_marathon].
  - intros [= <-]. rewrite elem_of_nil. split; [done|].
    intros (s & Hs & _). by apply elem_of_nil in Hs.
  - destruct (is_dry (default EmptyString (compound s))) eqn:Hd.
    + destruct (over_70_percent (Py.int_or0 (target_len_laps s)) n)
        as [e|b] eqn:Ho; [intros [=]|].
      destruct (check_marathon n ss) as [e'|ws'] eqn:Hm; [intros [=]|].
      intros [= <-]. rewrite elem_of_app, (IH ws' eq_refl). split.
      * intros [H|(s' & Hs' & H)].
        -- destruct b; [|by apply elem_of_nil in H].
           apply list_elem_of_singleton in H. injection H as -> ->.
           exists s. repeat split; try done; [by left|].
           unfold is_dry in Hd. by apply bool_decide_eq_true in Hd.
        -- exists s'. split; [by right|done].
      * intros (s' & Hs' & Hc & Hdry & Ht & Hgt).
        apply elem_of_cons in Hs' as [->|Hs'].
        -- left. subst c t. rewrite Hgt in Ho. injection Ho as <-. by left.
        -- right. by exists s'.
    + intros Hm. rewrite (IH ws Hm). split.
      * intros (s' & Hs' & H). exists s'. split; [by right|done].
      * intros (s' & Hs' & Hc & Hdry & H).
        apply elem_of_cons in Hs' as [->|Hs']; [|by exists s'].
        subst c. unfold is_dry in Hd.
        by apply bool_decide_eq_false in Hd.
Qed.

(** When check 7 completes, a warning is in the report exactly for a stint
    whose compound is, letter for letter, Soft, Medium or Hard and whose
    target length passes the test against the race length; it carries that
    compound and that length.  Nothing else is ever warned about. *)
Theorem marathon_warning_iff (l : Locals) (ws : list Warn) (c : string) (t : Z) :
  warnings_of l = inr ws →
  Marathon c t ∈ ws ↔
    ∃ s, s ∈ stints l ∧ default EmptyString (compound s) = c
         ∧ c ∈ ["Soft"; "Medium"; "Hard"]
         ∧ Py.int_or0 (target_len_laps s) = t
         ∧ over_70_percent t (total_laps l) = inr true.
Proof. apply check_marathon_elem. Qed.

Lemma marathon_warning_iff_witness :
  Marathon "Hard" 45 ∈ [Marathon "Hard" 45] ↔
    ∃ s, s ∈ stints scenario_E ∧ default EmptyString (compound s) = "Hard"
         ∧ "Hard" ∈ ["Soft"; "Medium"; "Hard"]
         ∧ Py.int_or0 (target_len_laps s) = 45
         ∧ over_70_percent 45 (total_laps scenario_E) = inr true.
Proof.
  apply (marathon_warning_iff scenario_E [Marathon "Hard" 45] "Hard" 45).
  vm_compute. reflexivity.
Defined.

(** ** The plans without errors *)

Section Acceptance.
Import Py.

Lemma only_final_error_iff (h : SetLayout) (l : Locals) (id : option Z) :
  OnlyFinal id ∈ errors_of h l ↔
    ∃ i prev, stints l !! i = Some prev ∧ stint_id prev = id
              ∧ int_or0 (planned_inlap prev) = 0 ∧ (i + 2 < length (stints l))%nat.
Proof.
  rewrite <- only_final_recorded_iff. split.
  - intros H. by by_origin H.
  - apply continuity_errors_reported.
Qed.

Lemma used_set_error_iff (h : SetLayout) (l : Locals) (id : option Z) :
  UsedSet id ∈ errors_of h l ↔
    allow_used l = false
    ∧ ∃ s, s ∈ stints l ∧ set_condition s = Some "used" ∧ stint_id s = id.
Proof.
  split; [apply used_set_origin|].
  intros (Ha & s & Hs & Hc & <-). by apply used_set_recorded.
Qed.

Lemma key_count_pos_inv (k : string) (ss : list Stint) :
  0 < key_count k ss → ∃ s, s ∈ ss ∧ usage_key s = k.
Proof.
  unfold key_count. intros Hpos.
  destruct (filter (λ s, usage_key s = k) ss) as [|s f] eqn:E; [simpl in Hpos; lia|].
  assert (s ∈ filter (λ s, usage_key s = k) ss) as Hs by (rewrite E; left).
  apply list_elem_of_filter in Hs as [Hk Hs]. by exists s.
Qed.

Lemma acceptable_no_errors (h : SetLayout) (l : Locals) :
  acceptable l → errors_of h l = [].
Proof.
  intros (H1 & H2 & H3 & H4 & H5 & H6 & H7).
  apply elem_of_nil_inv. intros e He. destruct e.
  - apply min_stints_recorded_iff in He as [He|(s & Hs & Hw)].
    + by destruct H1.
    + destruct H1 as [_ H1]. by apply Hw, H1.
  - apply (proj1 (diversity_recorded_iff h l used required)) in He
      as (-> & -> & Hpos & Hlt).
    destruct H2; lia.
  - apply max_stops_recorded_iff in He as (-> & -> & Hlt). lia.
  - apply only_final_error_iff in He as (i & prev & Hp & _ & Hz & Hi).
    destruct (stints l !! S i) as [cur|] eqn:Hc.
    2: { apply lookup_ge_None in Hc. lia. }
    specialize (H4 i prev cur Hp Hc). rewrite decide_True in H4 by done. lia.
  - apply continuity_recorded_iff in He
      as (i & prev & cur & Hp & Hc & Hz & Hs & _).
    specialize (H4 i prev cur Hp Hc). by rewrite decide_False in H4.
  - apply summary_recorded_iff in He as (_ & _ & Hne). done.
  - apply used_set_error_iff in He as (Ha & s & Hs & Hc & _).
    destruct H6 as [H6|H6]; [congruence|]. by apply (H6 s).
  - apply (proj1 (inventory_recorded_iff h l ck count have)) in He
      as (-> & Hpos & Hlen & Hk & Hlt).
    apply key_count_pos_inv in Hpos as (s & Hs & <-).
    destruct (H7 s Hs Hlen) as (have' & Hk' & Hle).
    rewrite Hk in Hk'. injection Hk' as <-. lia.
  - apply (proj2 (inventory_recorded_iff h l ck count 0)) in He
      as (-> & Hpos & Hlen & Hk).
    apply key_count_pos_inv in Hpos as (s & Hs & <-).
    destruct (H7 s Hs Hlen) as (have' & Hk' & _). congruence.
Qed.

Lemma no_errors_acceptable (h : SetLayout) (l : Locals) :
  errors_of h l = [] → acceptable l.
Proof.
  intros Hnil.
  assert (∀ e, e ∉ errors_of h l) as Hno
    by (intros e; rewrite Hnil; apply not_elem_of_nil).
  repeat split.
  - intros Hs. apply (Hno MinStints), min_stints_recorded_iff. by left.
  - intros s Hs.
    destruct (decide (stripped_compound s ∈ wet_set)) as [|Hw]; [done|].
    exfalso. apply (Hno MinStints), min_stints_recorded_iff. right. by exists s.
  - destruct (decide (distinct_dry (stints l) = 0%nat)) as [|Hz]; [by left|right].
    destruct (Z.le_gt_cases (min_compounds l) (Z.of_nat (distinct_dry (stints l))))
      as [|Hlt]; [done|exfalso].
    apply (Hno (Diversity (distinct_dry (stints l)) (min_compounds l))).
    apply (proj1 (diversity_recorded_iff h l _ _)). repeat split; lia.
  - destruct (Z.le_gt_cases (Z.of_nat (actual_stops (stints l))) (max_pitstops l))
      as [|Hlt]; [done|exfalso].
    apply (Hno (MaxStops (actual_stops (stints l)) (max_pitstops l))).
    apply max_stops_recorded_iff. repeat split; lia.
  - intros i prev cur Hp Hc. case_decide as Hz.
    + destruct (decide (i + 2 = length (stints l))%nat) as [|Hi]; [done|exfalso].
      apply (Hno (OnlyFinal (stint_id prev))), only_final_error_iff.
      exists i, prev. apply lookup_lt_Some in Hc. repeat split; (done || lia).
    + destruct (decide (int_or0 (start_lap cur) = int_or0 (planned_inlap prev) + 1))
        as [|Hs]; [done|exfalso].
      eapply Hno, continuity_recorded_iff. by exists i, prev, cur.
  - destruct (decide (uv_pit_laps l = expected_uv (stints l))) as [|Hne]; [done|].
    exfalso. eapply Hno, summary_recorded_iff. done.
  - destruct (allow_used l) eqn:Ha; [by left|right].
    intros s Hs Hc. apply (Hno (UsedSet (stint_id s))). by apply used_set_recorded.
  - intros s Hs Hlen.
    pose proof (two_part_key_checked h l s Hs Hlen) as Hk.
    destruct (inv l !! usage_key s) as [have|]; [|by apply Hno in Hk].
    exists have. split; [done|].
    destruct (Z.le_gt_cases (key_count (usage_key s) (stints l)) have)
      as [|Hlt]; [done|exfalso].
    eapply Hno, Hk. lia.
Qed.

End Acceptance.


Lemma one_stop_plan_acceptable : acceptable one_stop_plan.
Proof. apply (no_errors_acceptable Py.insertion_layout). vm_compute. reflexivity. Qed.

Lemma check_marathon_silent_iff (n : Z) (ss : list Stint) :
  check_marathon n ss = inr [] ↔
    ∀ s, s ∈ ss → on_dry_compound s →
         over_70_percent (Py.int_or0 (target_len_laps s)) n = inr false.
Proof.
  unfold on_dry_compound. induction ss as [|s ss IH]; cbn [check_marathon].
  - split; [|done]. intros _ s Hs. by apply elem_of_nil in Hs.
  - destruct (is_dry (default EmptyString (compound s))) eqn:Hd.
    + split.
      * intros H s' Hs' Hd'.
        destruct (over_70_percent (Py.int_or0 (target_len_laps s)) n)
          as [e|b] eqn:Ho; [done|].
        destruct (check_marathon n ss) as [e|ws] eqn:Hm; [done|].
        injection H as H. apply app_eq_nil in H as [Hb ->].
        apply elem_of_cons in Hs' as [->|Hs'].
        -- rewrite Ho. by destruct b.
        -- by apply (proj1 IH).
      * intros H. rewrite (H s) by (done || by left).
        rewrite (proj2 IH); [done|]. intros s' Hs' Hd'. apply H; [by right|done].
    + rewrite IH. split; intros H s' Hs' Hd'.
      * apply elem_of_cons in Hs' as [->|Hs']; [congruence|]. by apply H.
      * apply H; [by right|done].
Qed.


(** ** The empty plan *)



(** * The completeness check *)

Section Completeness.
Import Complete.

Lemma missing_nil_iff (data : Top) :
  filter (λ s, has_key data s = false) required = [] ↔
    has_version data = true
    ∧ is_Some (Yaml.metadata (doc data))
    ∧ is_Some (Yaml.assumptions (doc data))
    ∧ is_Some (Yaml.user_view (doc data))
    ∧ is_Some (Yaml.stints (doc data))
    ∧ has_pit_ops data = true
    ∧ has_costs data = true.
Proof.
  split.
  - intros Hnil.
    assert (∀ k, k ∈ required → has_key data k = true) as Hall.
    { intros k Hk. destruct (has_key data k) eqn:E; [done|exfalso].
      assert (k ∈ filter (λ s, has_key data s = false) required) as Hin
        by (apply list_elem_of_filter; done).
      rewrite Hnil in Hin. by apply elem_of_nil in Hin. }
    assert (∀ k, In k required → has_key data k = true) as Hall'
      by (intros k Hk; by apply Hall, list_elem_of_In).
    pose proof (Hall' "version" ltac:(simpl; auto 10)) as H1.
    pose proof (Hall' "metadata" ltac:(simpl; auto 10)) as H2.
    pose proof (Hall' "assumptions" ltac:(simpl; auto 10)) as H3.
    pose proof (Hall' "user_view" ltac:(simpl; auto 10)) as H4.
    pose proof (Hall' "stints" ltac:(simpl; auto 10)) as H5.
    pose proof (Hall' "pit_ops" ltac:(simpl; auto 10)) as H6.
    pose proof (Hall' "costs" ltac:(simpl; auto 10)) as H7.
    unfold has_key in H1, H2, H3, H4, H5, H6, H7. simpl in *.
    apply bool_decide_eq_true in H2, H3, H4, H5. done.
  - intros (H1 & H2 & H3 & H4 & H5 & H6 & H7).
    unfold required. rewrite !filter_cons, filter_nil. unfold has_key. simpl.
    rewrite H1, H6, H7, !bool_decide_eq_true_2 by done. reflexivity.
Qed.

End Completeness.

Lemma complete_answer_iff (loaded : string + Complete.Top) :
  Complete.check_yaml_completeness loaded = "COMPLETE" ↔
    ∃ data s ss,
      loaded = inr data
      ∧ Complete.has_version data = true
      ∧ is_Some (Yaml.metadata (Complete.doc data))
      ∧ is_Some (Yaml.assumptions (Complete.doc data))
      ∧ is_Some (Yaml.user_view (Complete.doc data))
      ∧ Yaml.stints (Complete.doc data) = Some (s :: ss)
      ∧ Complete.has_pit_ops data = true
      ∧ Complete.has_costs data = true.
Proof.
  destruct loaded as [e|data]; simpl.
  - split; [discriminate|]. by intros (? & ? & ? & [=] & _).
  - rewrite (bool_decide_ext _ _ (missing_nil_iff data)).
    case_bool_decide as Hm; simpl.
    + destruct Hm as (H1 & H2 & H3 & H4 & H5 & H6 & H7).
      unfold Complete.has_key, Complete.stints_empty. simpl.
      rewrite (bool_decide_eq_true_2 _ H5). simpl.
      destruct (Yaml.stints (Complete.doc data)) as [[|s ss]|] eqn:Hs.
      * split; [discriminate|].
        intros (d & s & ss & [= <-] & _ & _ & _ & _ & Hs' & _). congruence.
      * split; [|done]. intros _. by exists data, s, ss.
      * by destruct H5.
    + split; [discriminate|].
      intros (? & s & ss & [= <-] & H1 & H2 & H3 & H4 & H5 & H6 & H7).
      exfalso. apply Hm. rewrite H5. done.
Qed.

(** The check answers COMPLETE exactly when the text loaded, all seven
    sections are present and the list of stints has an element.  Presence is
    all it asks of the other six. *)
Theorem complete_iff (loaded : string + Complete.Top) :
  Complete.check_yaml_completeness loaded = "COMPLETE" ↔
    ∃ data s ss,
      loaded = inr data
      ∧ Complete.has_version data = true
      ∧ is_Some (Yaml.metadata (Complete.doc data))
      ∧ is_Some (Yaml.assumptions (Complete.doc data))
      ∧ is_Some (Yaml.user_view (Complete.doc data))
      ∧ Yaml.stints (Complete.doc data) = Some (s :: ss)
      ∧ Complete.has_pit_ops data = true
      ∧ Complete.has_costs data = true.
Proof. apply complete_answer_iff. Qed.



(** * The strategy store *)

Section StoreLaws.
Import Db.
Context {V : Type}.
Implicit Types (st : State V) (d : gmap string V) (n : string).

Lemma connected_save st n d : connected (save_strategy st n d) = connected st.
Proof. unfold save_strategy. by destruct (connected st) eqn:E. Qed.

Lemma connected_remove st n : connected (remove_strategy st n) = connected st.
Proof. unfold remove_strategy. by destruct (connected st) eqn:E. Qed.

Lemma list_strategies_elem (scan : Scan V) st n :
  connected st = true →
  n ∈ list_strategies scan st ↔ is_Some (strategies st !! n).
Proof.
  intros Hc. unfold list_strategies. rewrite Hc. simpl.
  by rewrite (rows_perm scan), elem_of_elements, elem_of_dom.
Qed.

End StoreLaws.





(** * The routes and tools on the store *)

Section Promotion.
Import Db.
Context {V : Type}.
Implicit Types (st : State V) (d : gmap string V) (n k : string).

Lemma keep_only_connected k st names :
  connected (Api.remove_others k st names) = connected st.
Proof.
  unfold Api.remove_others. revert st.
  induction names as [|x names IH]; intros st; [done|]. simpl.
  rewrite IH. case_decide; [apply connected_remove|done].
Qed.

Lemma keep_only_lookup k st names n :
  connected st = true →
  strategies (Api.remove_others k st names) !! n
  = if decide (n ≠ k ∧ n ∈ names) then None else strategies st !! n.
Proof.
  unfold Api.remove_others. revert st.
  induction names as [|x names IH]; intros st Hc; simpl.
  - rewrite decide_False; [done|]. intros [_ H]. by apply elem_of_nil in H.
  - assert (connected (if decide (x ≠ k) then remove_strategy st x else st) = true)
      as Hc' by (destruct (decide (x ≠ k)); [by rewrite connected_remove|done]).
    rewrite (IH _ Hc').
    destruct (decide (n ≠ k ∧ n ∈ names)) as [[Hk Hin]|Hnot].
    + rewrite decide_True; [done|]. split; [done|by right].
    + destruct (decide (x ≠ k)) as [Hx|Hx].
      * unfold remove_strategy. rewrite Hc. simpl.
        destruct (decide (n = x)) as [->|Hnx].
        -- rewrite lookup_delete_eq, decide_True; [done|]. split; [done|by left].
        -- rewrite lookup_delete_ne by done. rewrite decide_False; [done|].
           intros [Hk Hin]. apply Hnot. split; [done|].
           by apply elem_of_cons in Hin as [|].
      * rewrite decide_False; [done|]. intros [Hk Hin]. apply Hnot.
        split; [done|]. apply elem_of_cons in Hin as [->|]; [|done].
        by destruct Hx.
Qed.

Lemma keep_only_all (scan : Scan V) k st d :
  connected st = true → strategies st !! k = Some d →
  Api.remove_others k st (list_strategies scan st)
  = {| connected := true; strategies := {[k := d]} |}.
Proof.
  intros Hc Hk.
  assert (strategies (Api.remove_others k st (list_strategies scan st)) = {[k := d]}) as Hs.
  { apply map_eq. intros n. rewrite keep_only_lookup by done.
    destruct (decide (n = k)) as [->|Hne].
    - rewrite decide_False by (by intros []). by rewrite lookup_singleton_eq.
    - rewrite lookup_singleton_ne by done. case_decide as Hin; [done|].
      destruct (strategies st !! n) eqn:Hn; [|done]. exfalso. apply Hin.
      split; [done|]. apply list_strategies_elem; [done|]. by rewrite Hn. }
  pose proof (keep_only_connected k st (list_strategies scan st)) as Hc'.
  destruct (Api.remove_others k st (list_strategies scan st)). simpl in *. congruence.
Qed.

End Promotion.




Section Listing.
Import Db.
Context {V : Type} (safe_dump : gmap string V → string).

Lemma listing_fold (st : State V) (names : list string)
    (acc : gmap string (option string)) (n : string) :
  foldl (λ strategies_yaml k,
           <[k := match load_strategy st k with
                  | Found s => Some (safe_dump s)
                  | ValueError _ => None
                  end]> strategies_yaml) acc names !! n
  = if decide (n ∈ names)
    then Some match load_strategy st n with
              | Found s => Some (safe_dump s)
              | ValueError _ => None
              end
    else acc !! n.
Proof.
  revert acc. induction names as [|k names IH]; intros acc; cbn [foldl].
  - rewrite decide_False; [done|]. apply not_elem_of_nil.
  - rewrite IH. destruct (decide (n ∈ names)) as [Hin|Hnot].
    + rewrite decide_True; [done|by right].
    + destruct (decide (n = k)) as [->|Hne].
      * rewrite decide_True by (by left). by rewrite lookup_insert_eq.
      * rewrite lookup_insert_ne by done. rewrite decide_False; [done|].
        intros H. by apply elem_of_cons in H as [|].
Qed.

End Listing.

(** With a connection, a GET without a name answers with one entry per
    stored strategy, the dump of its document, and nothing else; the order
    in which the database lists the rows does not show.  A GET with a name
    answers with the dump of that strategy, or with 404 and the message of
    the store when the name is not stored. *)
Theorem get_serves_the_store {V : Type} (safe_dump : gmap string V → string)
    (scan : Db.Scan V) (st : Db.State V) :
  Db.connected st = true →
  Api.get_strategies safe_dump scan st None
  = Api.Strategies ((λ d, Some (safe_dump d)) <$> Db.strategies st)
  ∧ ∀ c rest,
      Api.get_strategies safe_dump scan st (Some (String c rest))
      = match Db.strategies st !! String c rest with
        | Some d => Api.YamlText (safe_dump d)
        | None =>
            Api.Error 404 ("Strategy '" +:+ String c rest +:+ "' not found.") None
        end.
Proof.
  intros Hc. split.
  - unfold Api.get_strategies. f_equal. apply map_eq. intros n.
    rewrite listing_fold, lookup_fmap, lookup_empty.
    destruct (decide (n ∈ Db.list_strategies scan st)) as [Hin|Hnot].
    + apply list_strategies_elem in Hin as [d Hd]; [|done].
      unfold Db.load_strategy. by rewrite Hc, Hd.
    + destruct (Db.strategies st !! n) as [d|] eqn:Hd; [|done].
      exfalso. apply Hnot, list_strategies_elem; [done|]. by rewrite Hd.
  - intros c rest. unfold Api.get_strategies, Db.load_strategy. rewrite Hc. simpl.
    by destruct (Db.strategies st !! String c rest).
Qed.

Lemma get_serves_the_store_witness :
  let scan : Db.Scan Z :=
    {| Db.rows := λ t, elements (dom t); Db.rows_perm := λ t, reflexivity _ |} in
  let st : Db.State Z :=
    {| Db.connected := true;
       Db.strategies := {["wet" := {["version" := 1]}]} |} in
  let safe_dump : gmap string Z → string := λ _, "version: 1" in
  Api.get_strategies safe_dump scan st None
  = Api.Strategies ((λ d, Some (safe_dump d)) <$> Db.strategies st)
  ∧ ∀ c rest,
      Api.get_strategies safe_dump scan st (Some (String c rest))
      = match Db.strategies st !! String c rest with
        | Some d => Api.YamlText (safe_dump d)
        | None =>
            Api.Error 404 ("Strategy '" +:+ String c rest +:+ "' not found.") None
        end.
Proof.
  intros scan st safe_dump. apply (get_serves_the_store safe_dump scan st).
  reflexivity.
Defined.


(** * The justification report *)

Section Justification.
Import Justify.

Lemma has_f1_iff (ch : Change) :
  has_f1 ch = true ↔
    ∃ srcs src, sources ch = Some srcs ∧ src ∈ srcs ∧ src_type src = Some "FastF1".
Proof.
  unfold has_f1. rewrite existsb_exists. split.
  - intros (src & Hin & Hb). apply bool_decide_eq_true in Hb.
    destruct (sources ch) as [srcs|]; [|done].
    exists srcs, src. by rewrite list_elem_of_In.
  - intros (srcs & src & -> & Hin & Ht). exists src.
    split; [by apply list_elem_of_In|by apply bool_decide_eq_true].
Qed.

Lemma misses_elem (j : Payload) (m : string) :
  m ∈ misses j ↔
    ∃ chs ch, justifications j = Some chs ∧ ch ∈ chs
              ∧ has_f1 ch = false ∧ m = default "?" (change_id ch).
Proof.
  unfold misses. rewrite elem_of_flat_map. split.
  - intros (ch & Hin & Hm).
    destruct (justifications j) as [chs|]; [|by apply elem_of_nil in Hin].
    destruct (has_f1 ch) eqn:Hf; [by apply elem_of_nil in Hm|].
    apply list_elem_of_singleton in Hm. by exists chs, ch.
  - intros (chs & ch & -> & Hin & Hf & ->). exists ch. split; [done|].
    rewrite Hf. by left.
Qed.

Lemma misses_nil_iff (j : Payload) :
  misses j = [] ↔
    ∀ chs ch, justifications j = Some chs → ch ∈ chs → has_f1 ch = true.
Proof.
  split.
  - intros Hnil chs ch Hj Hin. destruct (has_f1 ch) eqn:Hf; [done|exfalso].
    assert (default "?" (change_id ch) ∈ misses j) as Hm
      by (apply misses_elem; by exists chs, ch).
    rewrite Hnil in Hm. by apply elem_of_nil in Hm.
  - intros Hall. apply elem_of_nil_inv. intros m Hm.
    apply misses_elem in Hm as (chs & ch & Hj & Hin & Hf & _).
    rewrite (Hall chs ch Hj Hin) in Hf. done.
Qed.

End Justification.

(** The tool hands a payload back only when it is an object with a
    [strategy_id] and a list of [justifications] in which every change cites
    at least one source of type FastF1; whatever it hands back is the object
    it was given. *)
Theorem justification_echoed_iff (call : Justify.Call) (obj : Justify.Payload) :
  Justify.structured_justification_response call = Justify.Echoed obj ↔
    call = Justify.Object obj
    ∧ Justify.has_strategy_id obj = true
    ∧ ∃ chs, Justify.justifications obj = Some chs
             ∧ ∀ ch, ch ∈ chs →
                 ∃ srcs src, Justify.sources ch = Some srcs ∧ src ∈ srcs
                             ∧ Justify.src_type src = Some "FastF1".
Proof.
  destruct call as [| | |o]; simpl;
    try (split; [discriminate|by intros [[=] _]]).
  pose proof (misses_nil_iff o) as Hnil.
  destruct (Justify.misses o) as [|m ms] eqn:Hm.
  - destruct (Justify.has_strategy_id o) eqn:Hid; simpl.
    + destruct (Justify.justifications o) as [chs|] eqn:Hj; simpl.
      * split.
        -- intros [= <-]. rewrite Hid, Hj. repeat split. exists chs.
           split; [done|]. intros ch Hin. apply has_f1_iff.
           by apply (proj1 Hnil eq_refl chs).
        -- by intros ([= <-] & _).
      * split; [discriminate|]. intros ([= <-] & _ & chs & Hj' & _). congruence.
    + split; [discriminate|]. intros ([= <-] & Hid' & _). congruence.
  - split; [discriminate|]. intros ([= <-] & _ & chs & Hj & Hall).
    assert (m :: ms = []) as Habs; [|done].
    apply Hnil. intros chs' ch Hj' Hin. apply has_f1_iff, Hall. congruence.
Qed.

(** A payload in which some change has no FastF1 source is refused with the
    list of those changes: their [change_id]s, or a question mark where
    there is none, in the order of the payload.  The refusal is the message
    of [_require_fastf1_sources] behind the word ERROR, and it comes before
    the test for the two required keys. *)
Theorem justification_lists_missing_citations (obj : Justify.Payload) :
  (Justify._require_fastf1_sources obj = None ↔
     ∀ chs ch, Justify.justifications obj = Some chs → ch ∈ chs →
       Justify.has_f1 ch = true)
  ∧ (∀ msg, Justify._require_fastf1_sources obj = Some msg →
       Justify.structured_justification_response (Justify.Object obj)
       = Justify.Refused ("ERROR: " +:+ msg)
       ∧ msg = "Every change must have at least one FastF1 citation; missing: "
               +:+ Py.join ", "
                     (map (λ ch, default "?" (Justify.change_id ch))
                        (filter (λ ch, Justify.has_f1 ch = false)
                           (default [] (Justify.justifications obj))))).
Proof.
  assert (Justify.misses obj
          = map (λ ch, default "?" (Justify.change_id ch))
              (filter (λ ch, Justify.has_f1 ch = false)
                 (default [] (Justify.justifications obj)))) as Hmap.
  { unfold Justify.misses.
    induction (default [] (Justify.justifications obj)) as [|ch chs IH];
      [reflexivity|].
    simpl. rewrite filter_cons, IH. destruct (Justify.has_f1 ch) eqn:Hf.
    - by rewrite decide_False.
    - by rewrite decide_True. }
  split.
  - rewrite <- misses_nil_iff. unfold Justify._require_fastf1_sources.
    by destruct (Justify.misses obj).
  - intros msg. unfold Justify._require_fastf1_sources.
    cbn [Justify.structured_justification_response]. rewrite <- Hmap.
    destruct (Justify.misses obj) as [|m ms]; [done|].
    intros [= <-]. split; reflexivity.
Qed.

(** * The result text of the SQL tool *)

Section CsvCut.
Context {Ch : Type} `{EqDecision Ch}.

Lemma rsplit1_Some (sep : Ch) (s a b : list Ch) :
  Csv.rsplit1 sep s = Some (a, b) → s = a ++ sep :: b ∧ sep ∉ b.
Proof.
  revert a. induction s as [|c s IH]; intros a; simpl; [discriminate|].
  destruct (Csv.rsplit1 sep s) as [[a' b']|] eqn:E.
  - intros [= <- <-]. destruct (IH a' eq_refl) as [-> Hb]. done.
  - case_decide as Hc; [|discriminate]. intros [= <- <-]. subst c. split; [done|].
    clear IH. induction s as [|c s IH]; [apply not_elem_of_nil|].
    simpl in E. destruct (Csv.rsplit1 sep s) as [[??]|]; [discriminate|].
    case_decide; [discriminate|]. apply not_elem_of_cons. split; [congruence|].
    by apply IH.
Qed.

Lemma rsplit1_None (sep : Ch) (s : list Ch) :
  Csv.rsplit1 sep s = None → sep ∉ s.
Proof.
  induction s as [|c s IH]; simpl; [intros _; apply not_elem_of_nil|].
  destruct (Csv.rsplit1 sep s) as [[??]|]; [discriminate|].
  case_decide; [discriminate|]. intros _. apply not_elem_of_cons.
  split; [congruence|]. by apply IH.
Qed.

Lemma last_occurrence_unique (sep : Ch) (a a' b b' : list Ch) :
  a ++ sep :: b = a' ++ sep :: b' → sep ∉ b → sep ∉ b' → a = a'.
Proof.
  revert a'. induction a as [|c a IH]; intros [|c' a']; simpl.
  - done.
  - intros [= <- ->] Hb _. exfalso. apply Hb.
    apply elem_of_app. right. by left.
  - intros [= -> <-] _ Hb'. exfalso. apply Hb'.
    apply elem_of_app. right. by left.
  - intros [= <- Heq] Hb Hb'. f_equal. by apply IH.
Qed.

End CsvCut.

(** The text the SQL tool returns is never longer than 10000 characters and
    is a beginning of what the writer produced, cut in front of a line feed:
    in front of the last one among the first 10000 characters, or not at all
    when there is none.  So an output that fits and ends in a line feed comes
    back whole but for that line feed, and of a longer one the row that was
    being written at the limit is dropped.  No records give the empty text. *)
Theorem csv_text_is_cut_at_a_line {Ch R : Type} `{EqDecision Ch} (newline : Ch)
    (getvalue : list R → list Ch) (records : list R) :
  let text := getvalue records in
  let r := Csv.records_to_csv newline getvalue records in
  (length r ≤ Csv.limit)%nat
  ∧ (records = [] → r = [])
  ∧ (records ≠ [] →
       r `prefix_of` text
       ∧ (newline ∉ take Csv.limit text → r = take Csv.limit text)
       ∧ (newline ∈ take Csv.limit text →
            ∃ rest, take Csv.limit text = r ++ newline :: rest ∧ newline ∉ rest)
       ∧ (∀ body, text = body ++ [newline] → (length text ≤ Csv.limit)%nat →
            r = body)).
Proof.
  intros text r. subst r.
  destruct records as [|x records]; simpl.
  { split; [lia|]. split; [done|]. by intros []. }
  fold text. unfold Csv.rsplit1_first.
  assert (length (take Csv.limit text) ≤ Csv.limit)%nat as Hlen
    by (rewrite length_take; lia).
  assert (take Csv.limit text `prefix_of` text) as Hpre
    by (exists (drop Csv.limit text); by rewrite take_drop).
  destruct (Csv.rsplit1 newline (take Csv.limit text)) as [[a b]|] eqn:E.
  - apply rsplit1_Some in E as [Ha Hb].
    split; [rewrite Ha, length_app in Hlen; lia|].
    split; [discriminate|]. intros _.
    split.
    { etrans; [|exact Hpre]. rewrite Ha. by eexists. }
    split.
    { intros Hn. exfalso. apply Hn. rewrite Ha. apply elem_of_app. right. by left. }
    split; [intros _; by exists b|].
    intros body Ht Hl. rewrite take_ge in Ha by lia. rewrite Ht in Ha.
    symmetry. eapply (last_occurrence_unique newline body a [] b);
      [exact Ha|apply not_elem_of_nil|exact Hb].
  - apply rsplit1_None in E.
    split; [exact Hlen|]. split; [discriminate|]. intros _.
    split; [exact Hpre|]. split; [done|]. split; [done|].
    intros body Ht Hl. exfalso. apply E. rewrite take_ge by lia. rewrite Ht.
    apply elem_of_app. right. by left.
Qed.
